(** * Email processing pipeline of [app.py]: a shallow embedding

    The development follows [src/code/src/app.py] top to bottom:
    the taxonomy constants, duplicate detection over the process-wide
    hash set, the classifier call with its three-line parsing, field
    extraction by regular expressions, the end-to-end [process_email]
    and the extension dispatch of [process_email_file].

    Conventions.
    - A Python [str] is a Rocq [string]; each character is read as the
      code point of the same number, so the texts covered are those over
      U+0000..U+00FF.  The character classes below are Python's classes
      restricted to that range.
    - Character-level work (regular expressions, [strip], [split]) is done
      on [list ascii]; the functions named after the source convert at
      their boundary.
    - A Python exception is a value [Raise e] of the type [result].
    - A Python [float] that is not negative is a value of [pyfloat]: a
      finite binary64 number, kept as the rational it denotes, or inf.
      [float(s)] rounds the numeral to the nearest binary64 number, ties
      to even, and overflows to inf. *)

From Stdlib Require Import Ascii String QArith DecimalString.
From stdpp Require Import gmap strings list fin_maps.

Local Open Scope string_scope.
Local Open Scope list_scope.

(** * Characters and strings *)

Module PyStr.

Definition code (c : ascii) : N := N_of_ascii c.

Definition in_range (lo hi : N) (c : ascii) : bool :=
  ((lo <=? code c) && (code c <=? hi))%N.

(** [str.isspace] on U+0000..U+00FF; this is also the class [\s] of [re]
    for [str] patterns and the set removed by [str.strip()]. *)
Definition is_space (c : ascii) : bool :=
  in_range 9 13 c || in_range 28 32 c
  || (code c =? 133)%N || (code c =? 160)%N.

(** [\d] of [re] for [str] patterns: decimal digits; only 0-9 below U+0100. *)
Definition is_digit (c : ascii) : bool := in_range 48 57 c.

(** ASCII letters. *)
Definition is_ascii_letter (c : ascii) : bool :=
  in_range 65 90 c || in_range 97 122 c.

(** [str.isalpha] on U+0000..U+00FF. *)
Definition is_alpha (c : ascii) : bool :=
  is_ascii_letter c
  || (code c =? 170)%N || (code c =? 181)%N || (code c =? 186)%N
  || in_range 192 214 c || in_range 216 246 c || in_range 248 255 c.

(** [str.isalnum] on U+0000..U+00FF: alphabetic, decimal, digit
    (superscripts 1, 2, 3) or numeric (the vulgar fractions). *)
Definition is_alnum (c : ascii) : bool :=
  is_alpha c || is_digit c
  || (code c =? 178)%N || (code c =? 179)%N || (code c =? 185)%N
  || in_range 188 190 c.

(** [\w] of [re] for [str] patterns: alphanumeric or underscore. *)
Definition is_word (c : ascii) : bool := is_alnum c || (code c =? 95)%N.

(** [str.lower] on one character of U+0000..U+00FF. *)
Definition lower_char (c : ascii) : ascii :=
  if in_range 65 90 c || in_range 192 214 c || in_range 216 222 c
  then ascii_of_N (code c + 32) else c.

Definition lower (s : string) : string :=
  string_of_list_ascii (map lower_char (list_ascii_of_string s)).

Fixpoint drop_while (p : ascii -> bool) (l : list ascii) : list ascii :=
  match l with
  | c :: l' => if p c then drop_while p l' else l
  | [] => []
  end.

Fixpoint take_while (p : ascii -> bool) (l : list ascii) : list ascii :=
  match l with
  | c :: l' => if p c then c :: take_while p l' else []
  | [] => []
  end.

(** [s.strip()] *)
Definition strip_chars (l : list ascii) : list ascii :=
  rev (drop_while is_space (rev (drop_while is_space l))).

Definition strip (s : string) : string :=
  string_of_list_ascii (strip_chars (list_ascii_of_string s)).

Definition newline : ascii := ascii_of_N 10.

(** [s.split("\n")] *)
Fixpoint split_newline (l : list ascii) : list (list ascii) :=
  match l with
  | [] => [[]]
  | c :: l' =>
      if Ascii.eqb c newline then [] :: split_newline l'
      else match split_newline l' with
           | line :: lines => (c :: line) :: lines
           | [] => [[c]]
           end
  end.

(** [sep.join(parts)] *)
Fixpoint join (sep : string) (parts : list string) : string :=
  match parts with
  | [] => ""
  | [p] => p
  | p :: ps => p +:+ sep +:+ join sep ps
  end.

(** [str(n)] for an [int] *)
Definition str_of_int (z : Z) : string := NilZero.string_of_int (Z.to_int z).

(** [prefix] is a prefix of [l]: the rest after it. *)
Fixpoint strip_prefix (prefix l : list ascii) : option (list ascii) :=
  match prefix, l with
  | [], _ => Some l
  | p :: prefix', c :: l' =>
      if Ascii.eqb p c then strip_prefix prefix' l' else None
  | _ :: _, [] => None
  end.

(** [sub in s] for strings, on character lists. *)
Fixpoint contains (sub l : list ascii) : bool :=
  match strip_prefix sub l with
  | Some _ => true
  | None => match l with
            | [] => false
            | _ :: l' => contains sub l'
            end
  end.

End PyStr.

(** * Exceptions *)

Inductive exn : Type :=
| ConnectionError (msg : string)
| Timeout (msg : string)
| JSONDecodeError (msg : string)
| AttributeError (msg : string)
| IndexError (msg : string)
| KeyError (msg : string)
| TypeError (msg : string)
| ValueError (msg : string)
| ImportError (msg : string)
| OSError (msg : string).

Inductive result (A : Type) : Type :=
| Ok (a : A)
| Raise (e : exn).
Arguments Ok {A} a.
Arguments Raise {A} e.

#[export] Instance result_ret : MRet result := fun _ a => Ok a.
#[export] Instance result_bind : MBind result := fun _ _ f m =>
  match m with
  | Ok a => f a
  | Raise e => Raise e
  end.

(** A [for] loop that appends [f x] for each [x], stopping at the first
    exception. *)
Fixpoint for_each {A B : Type} (f : A -> result B) (l : list A) : result (list B) :=
  match l with
  | [] => Ok []
  | x :: l' => y ← f x; ys ← for_each f l'; Ok (y :: ys)
  end.

(** * Regular expressions

    The fragment of Python's [re] that the four patterns of [app.py] use:
    literals, character classes, sequencing, greedy [*], [+], [?] and
    bounded repetition, and one capturing group.  Matching is the
    backtracking search of [re]: greedy choices are tried longest first
    and the first success wins. *)

Module Re.

Inductive regex : Type :=
| Eps
| Cls (p : ascii -> bool)
| Seq (r1 r2 : regex)
| Alt (r1 r2 : regex)
| Star (r : regex)
| Grp (r : regex).

Definition Chr (c : ascii) : regex := Cls (Ascii.eqb c).

(** A literal string. *)
Fixpoint Lit (l : list ascii) : regex :=
  match l with
  | [] => Eps
  | c :: l' => Seq (Chr c) (Lit l')
  end.

(** [r+] *)
Definition Plus (r : regex) : regex := Seq r (Star r).

(** [r?] (greedy: [r] is tried first) *)
Definition Opt (r : regex) : regex := Alt r Eps.

(** [r{n}] *)
Fixpoint Times (n : nat) (r : regex) : regex :=
  match n with
  | O => Eps
  | S n' => Seq r (Times n' r)
  end.

(** [r{1,2}] *)
Definition OneOrTwo (r : regex) : regex := Seq r (Opt r).

Section Matcher.

Context {A : Type}.

(** What is left of the subject, and the text of group 1 if it has
    taken part in the match so far. *)
Definition cont : Type := list ascii -> option (list ascii) -> option A.

Definition matcher : Type := list ascii -> option (list ascii) -> cont -> option A.

(** Greedy iteration of [m]: one more round first, provided the round
    consumed something, and the continuation otherwise.  [n] bounds the
    number of rounds by the length of the subject. *)
Fixpoint star (m : matcher) (n : nat) (s : list ascii)
    (g : option (list ascii)) (k : cont) : option A :=
  match n with
  | O => k s g
  | S n' =>
      match m s g (fun s' g' =>
                     if (length s' <? length s)%nat
                     then star m n' s' g' k else None) with
      | Some x => Some x
      | None => k s g
      end
  end.

Fixpoint rmatch (r : regex) (s : list ascii) (g : option (list ascii))
    (k : cont) : option A :=
  match r with
  | Eps => k s g
  | Cls p =>
      match s with
      | c :: s' => if p c then k s' g else None
      | [] => None
      end
  | Seq r1 r2 => rmatch r1 s g (fun s' g' => rmatch r2 s' g' k)
  | Alt r1 r2 =>
      match rmatch r1 s g k with
      | Some x => Some x
      | None => rmatch r2 s g k
      end
  | Star r' => star (rmatch r') (length s) s g k
  | Grp r' =>
      rmatch r' s g
        (fun s' _ => k s' (Some (take (length s - length s') s)))
  end.

End Matcher.

(** [re.match(r, s)]: on a match, the value of [.group(1)]
    ([None] when group 1 took no part). *)
Definition re_match (r : regex) (s : list ascii) : option (option (list ascii)) :=
  rmatch r s None (fun _ g => Some g).

(** [re.search(r, s)]: the match at the leftmost start position that has
    one, positions tried from 0 to [len(s)]. *)
Fixpoint re_search (r : regex) (s : list ascii) : option (option (list ascii)) :=
  match re_match r s with
  | Some g => Some g
  | None =>
      match s with
      | [] => None
      | _ :: s' => re_search r s'
      end
  end.

End Re.

(** * The program *)

Import PyStr.

Definition of_str (s : string) : list ascii := list_ascii_of_string s.
Definition to_str (l : list ascii) : string := string_of_list_ascii l.

(** [re.search(pattern, s)] on a [str]: [None] when there is no match,
    otherwise the value of [.group(1)] of the match. *)
Definition search (r : Re.regex) (s : string) : option (option string) :=
  match Re.re_search r (of_str s) with
  | Some g => Some (to_str <$> g)
  | None => None
  end.

(** ** Categories and sub request types *)

Definition REQUEST_TYPES : list string :=
  [ "Adjustment"; "AU Trasfer"; "Closing Notice"; "Commitment Change";
    "Fee Payment"; "Money Movement Inbound"; "Money Movement Outbound" ].

Definition SUB_REQUEST_TYPES : gmap string (list string) :=
  <["Closing Notice" :=
      ["Reallocation Fees"; "Amendment Fees"; "Reallocation Principal"] ]>
  (<["Commitment Change" := ["Cashless Roll"; "Decrease"; "Increase"] ]>
  (<["Fee Payment" := ["Ongoing Fee"; "Letter of Credit Fee"] ]>
  (<["Money Movement Inbound" :=
      ["Principal"; "Interest"; "Principal+Interest";
       "Principal+Interest+Fee"] ]>
  (<["Money Movement Outbound" := ["Timebound"; "Foreign Currency"] ]> ∅)))).

(** ** Values decoded from JSON, and the HTTP call *)

Unset Elimination Schemes.
Inductive json_value : Type :=
| JNull
| JBool (b : bool)
| JInt (z : Z)
| JFloat (q : Q)
| JStr (s : string)
| JList (l : list json_value)
| JDict (items : list (string * json_value)).
Set Elimination Schemes.

(** The response object of [requests]: [json] is what [response.json()]
    does on the body, a decoded value or [JSONDecodeError]. *)
Record Response : Type := {
  status_code : Z;
  text : string;
  json : result json_value
}.

(** What [requests.post] does: it raises (no connection, timeout, ...) or
    returns a response. *)
Inductive post_outcome : Type :=
| Raised (e : exn)
| Responded (response : Response).

Fixpoint assoc (key : string) (items : list (string * json_value)) : option json_value :=
  match items with
  | [] => None
  | (k, v) :: items' => if String.eqb k key then Some v else assoc key items'
  end.

(** [type(v).__name__] *)
Definition type_name (v : json_value) : string :=
  match v with
  | JNull => "NoneType"
  | JBool _ => "bool"
  | JInt _ => "int"
  | JFloat _ => "float"
  | JStr _ => "str"
  | JList _ => "list"
  | JDict _ => "dict"
  end.

Definition no_attribute (v : json_value) (attribute : string) : exn :=
  AttributeError
    ("'" +:+ type_name v +:+ "' object has no attribute '" +:+ attribute +:+ "'").

(** [v.get(key, default)] *)
Definition py_get (v : json_value) (key : string) (default : json_value) : result json_value :=
  match v with
  | JDict items => Ok (from_option id default (assoc key items))
  | _ => Raise (no_attribute v "get")
  end.

(** [v[0]] *)
Definition py_item0 (v : json_value) : result json_value :=
  match v with
  | JList (x :: _) => Ok x
  | JList [] => Raise (IndexError "list index out of range")
  | JStr (String c _) => Ok (JStr (String c EmptyString))
  | JStr EmptyString => Raise (IndexError "string index out of range")
  | JDict _ => Raise (KeyError "0")
  | _ => Raise (TypeError ("'" +:+ type_name v +:+ "' object is not subscriptable"))
  end.

(** A method of [str] applied to [v]. *)
Definition py_as_str (v : json_value) : result string :=
  match v with
  | JStr s => Ok s
  | _ => Raise (no_attribute v "strip")
  end.

(** ** Floats *)

Definition digit_value (c : ascii) : Z := Z.of_N (code c - 48).

Definition digits_value (l : list ascii) : Z :=
  fold_left (fun acc c => 10 * acc + digit_value c)%Z l 0%Z.

Definition nonempty {X : Type} (l : list X) : bool :=
  match l with [] => false | _ :: _ => true end.

Definition dot : ascii := ascii_of_N 46.

(** A float that is not negative: a finite binary64 number, kept as the
    rational it denotes, or inf. *)
Inductive pyfloat : Type :=
| Finite (q : Q)
| Infinity.

(** [a <= b] on such floats. *)
Definition pyfloat_le (a b : pyfloat) : Prop :=
  match a, b with
  | Finite x, Finite y => (x <= y)%Q
  | _, Infinity => True
  | Infinity, Finite _ => False
  end.

(** The exponent of the leading bit of [n / d], for [n > 0]: the floor of
    its binary logarithm. *)
Definition ilog2_ratio (n : Z) (d : positive) : Z :=
  let e0 := (Z.log2 n - Z.log2 (Zpos d))%Z in
  if (if 0 <=? e0 then Zpos d * 2 ^ e0 <=? n else Zpos d <=? n * 2 ^ (- e0))%Z
  then e0 else (e0 - 1)%Z.

(** [num / den] rounded to the nearest integer, ties to even. *)
Definition round_half_even (num den : Z) : Z :=
  let m := (num / den)%Z in
  let r := (num mod den)%Z in
  if (2 * r <? den)%Z then m
  else if (den <? 2 * r)%Z then (m + 1)%Z
  else if Z.even m then m else (m + 1)%Z.

(** The rational [m * 2 ^ q], in lowest terms. *)
Definition dyadic (m q : Z) : Q :=
  Qred (if (0 <=? q)%Z then (m * 2 ^ q) # 1 else m # Z.to_pos (2 ^ (- q))).

(** [n / d] rounded to binary64: 53 significant bits, the last of them
    worth at least [2 ^ -1074], ties to even, and inf from [2 ^ 1024] on. *)
Definition round_binary64 (n : Z) (d : positive) : pyfloat :=
  if (n <=? 0)%Z then Finite 0
  else
    let q := Z.max (ilog2_ratio n d - 52) (-1074) in
    let m :=
      if (0 <=? q)%Z then round_half_even n (Zpos d * 2 ^ q)
      else round_half_even (n * 2 ^ (- q)) (Zpos d) in
    if (0 <=? q)%Z && (2 ^ 1024 <=? m * 2 ^ q)%Z then Infinity
    else Finite (dyadic m q).

Definition not_a_float (s : string) : exn :=
  ValueError ("could not convert string to float: '" +:+ s +:+ "'").

(** [float(s)] for [s] made of decimal digits and dots, which is all that
    group 1 of the confidence pattern can hold: digits with at most one
    dot and at least one digit, rounded to binary64; anything else is a
    [ValueError]. *)
Definition py_float (s : string) : result pyfloat :=
  let l := of_str s in
  let int_part := take_while is_digit l in
  match drop_while is_digit l with
  | [] =>
      if nonempty int_part then Ok (round_binary64 (digits_value int_part) 1)
      else Raise (not_a_float s)
  | c :: frac_part =>
      if Ascii.eqb c dot && forallb is_digit frac_part
         && (nonempty int_part || nonempty frac_part)
      then Ok (round_binary64 (digits_value (int_part ++ frac_part))
                 (Z.to_pos (10 ^ Z.of_nat (length frac_part))))
      else Raise (not_a_float s)
  end.

(** ** The four patterns *)

Definition digit_or_dot (c : ascii) : bool := is_digit c || Ascii.eqb c ".".
Definition digit_or_comma (c : ascii) : bool := is_digit c || Ascii.eqb c ",".
Definition deal_char (c : ascii) : bool :=
  is_word c || is_space c || Ascii.eqb c "-".

(** [r"Confidence:\s*([\d\.]+)"] *)
Definition confidence_pattern : Re.regex :=
  Re.Seq (Re.Lit (of_str "Confidence:"))
    (Re.Seq (Re.Star (Re.Cls is_space))
       (Re.Grp (Re.Plus (Re.Cls digit_or_dot)))).

(** [r"Deal:\s*([\w\s\-]+)"] *)
Definition deal_pattern : Re.regex :=
  Re.Seq (Re.Lit (of_str "Deal:"))
    (Re.Seq (Re.Star (Re.Cls is_space))
       (Re.Grp (Re.Plus (Re.Cls deal_char)))).

(** [r"\$\s*([\d,]+(?:\.\d{2})?)"] *)
Definition amount_pattern : Re.regex :=
  Re.Seq (Re.Chr "$")
    (Re.Seq (Re.Star (Re.Cls is_space))
       (Re.Grp
          (Re.Seq (Re.Plus (Re.Cls digit_or_comma))
             (Re.Opt (Re.Seq (Re.Chr ".") (Re.Times 2 (Re.Cls is_digit))))))).

(** [r"(\d{1,2}/\d{1,2}/\d{4})"] *)
Definition date_pattern : Re.regex :=
  Re.Grp
    (Re.Seq (Re.OneOrTwo (Re.Cls is_digit))
       (Re.Seq (Re.Chr "/")
          (Re.Seq (Re.OneOrTwo (Re.Cls is_digit))
             (Re.Seq (Re.Chr "/") (Re.Times 4 (Re.Cls is_digit)))))).

(** ** Results *)

Record ClassificationResult : Type := {
  primary_request : string;
  sub_request : option string;
  confidence : option pyfloat;
  details : string
}.

(** The dict built by [extract_fields]: a value is a [str] or [None]. *)
Definition Fields : Type := gmap string (option string).

Record ProcessingResult : Type := {
  duplicate : bool;
  duplicate_reason : string;
  classification : ClassificationResult;
  extracted_fields : Fields;
  attachments_extracted_fields : list Fields
}.

(** ** Classification *)

(** [[line.strip() for line in response_text.strip().split("\n")
      if line.strip()]] *)
Definition response_lines (response_text : string) : list string :=
  map (fun line => to_str (strip_chars line))
    (filter (fun line => nonempty (strip_chars line) = true)
       (split_newline (strip_chars (of_str response_text)))).

(** Truth value of a [str] or [None]. *)
Definition truthy (v : option string) : bool :=
  match v with
  | Some s => negb (String.eqb s "")
  | None => false
  end.

(** Lines 82 to 90: the primary request and the validated sub request. *)
Definition parse_primary (lines : list string) : string :=
  if (0 <? length lines)%nat then from_option id "Unknown" (lines !! 0%nat)
  else "Unknown".

Definition parse_sub (lines : list string) : option string :=
  let primary_request := parse_primary lines in
  let sub_request :=
    if (1 <? length lines)%nat
       && negb (String.eqb (from_option id "" (lines !! 1%nat)) "")
    then lines !! 1%nat else None in
  if truthy sub_request
     && bool_decide (is_Some (SUB_REQUEST_TYPES !! primary_request))
  then
    if negb (bool_decide
               (from_option id "" sub_request
                ∈ from_option id [] (SUB_REQUEST_TYPES !! primary_request)))
    then None else sub_request
  else None.

(** Lines 92 to 100: the confidence. *)
Definition parse_confidence (lines : list string) : option pyfloat :=
  if (2 <? length lines)%nat then
    match search confidence_pattern (from_option id "" (lines !! 2%nat)) with
    | Some g =>
        match py_float (from_option id "" g) with
        | Ok x => Some x
        | Raise _ => None
        end
    | None => None
    end
  else None.

(** The content of the one message of the request. *)
Definition prompt (email_text : string) : string :=
  "Analyze the following email and determine the primary request type from the predefined categories: "
  +:+ join ", " REQUEST_TYPES +:+ ". Email text: " +:+ email_text
  +:+ String newline "Return the result on three lines:"
  +:+ String newline "First line: Primary Request Type"
  +:+ String newline "Second line: Sub Request Type (if applicable; if not, leave blank)."
  +:+ String newline "Third line: Confidence: <decimal number between 0 and 1>.".

(** [post] stands for [requests.post] during this call, as a function of
    the prompt sent. *)
Definition call_openrouter_deepseek (post : string -> post_outcome)
    (email_text : string) : result ClassificationResult :=
  match post (prompt email_text) with
  | Raised e => Raise e
  | Responded response =>
      if (status_code response =? 200)%Z then
        result ← json response;
        choices ← py_get result "choices" (JList [JDict []]);
        choice ← py_item0 choices;
        message ← py_get choice "message" (JDict []);
        content ← py_get message "content" (JStr "Unknown");
        response_text ← py_as_str content;
        let lines := response_lines response_text in
        Ok {| primary_request := parse_primary lines;
              sub_request := parse_sub lines;
              confidence := parse_confidence lines;
              details := "DeepSeek R1 analysis confirms the classification." |}
      else
        Ok {| primary_request := "Error";
              sub_request := None;
              confidence := Some (Finite 0);
              details := "Error calling DeepSeek API: "
                         +:+ str_of_int (status_code response)
                         +:+ " " +:+ text response |}
  end.

(** ** Field extraction *)

(** [m.group(1).strip()]: [None] has no [strip]. *)
Definition group1_strip (g : option string) : result string :=
  match g with
  | Some s => Ok (strip s)
  | None => Raise (AttributeError "'NoneType' object has no attribute 'strip'")
  end.

Definition extract_fields (email_text : string) : result Fields :=
  let fields : Fields := ∅ in
  deal_name ←
    match search deal_pattern email_text with
    | Some g => s ← group1_strip g; Ok (Some s)
    | None => Ok None
    end;
  let fields := <["deal_name" := deal_name]> fields in
  let fields :=
    <["amount" :=
        match search amount_pattern email_text with
        | Some g => g
        | None => None
        end]> fields in
  let fields :=
    <["expiration_date" :=
        match search date_pattern email_text with
        | Some g => g
        | None => None
        end]> fields in
  Ok fields.

(** ** Duplicate detection and the pipeline *)

Section Pipeline.

(** [hashlib.sha256(s.encode("utf-8")).hexdigest()] *)
Variable sha256_hexdigest : string -> string.

(** The module-level [email_hash_set]. *)
Definition HashSet : Type := gset string.

Definition compute_email_hash (email_text : string) : string :=
  sha256_hexdigest email_text.

Definition is_duplicate (email_text : string) (email_hash_set : HashSet)
    : HashSet * (bool * string) :=
  let email_hash := compute_email_hash email_text in
  if bool_decide (email_hash ∈ email_hash_set) then
    (email_hash_set,
     (true, "Duplicate email detected (hash: " +:+ email_hash +:+ ")."))
  else
    ({[email_hash]} ∪ email_hash_set, (false, "")).

(** [attachments] is [None] (the default) or a list of texts; the loop
    runs when it is a non-empty list. *)
Definition process_email (post : string -> post_outcome)
    (email_text : string) (attachments : option (list string))
    (email_hash_set : HashSet) : HashSet * result ProcessingResult :=
  let '(email_hash_set, (duplicate_flag, duplicate_reason)) :=
    is_duplicate email_text email_hash_set in
  (email_hash_set,
   deepseek_result ← call_openrouter_deepseek post email_text;
   extracted ← extract_fields email_text;
   attachment_results ←
     match attachments with
     | Some (a :: l) => for_each extract_fields (a :: l)
     | _ => Ok []
     end;
   Ok {| duplicate := duplicate_flag;
         duplicate_reason := duplicate_reason;
         classification := deepseek_result;
         extracted_fields := extracted;
         attachments_extracted_fields := attachment_results |}).

End Pipeline.

(** ** File upload handling *)

(** [p.rfind(c)] for a one-character [c]: the last index of [c] in [p],
    or -1. *)
Fixpoint rfind_from (c : ascii) (p : list ascii) (i last : Z) : Z :=
  match p with
  | [] => last
  | x :: p' => rfind_from c p' (i + 1)%Z (if Ascii.eqb x c then i else last)
  end.

Definition rfind (c : ascii) (p : list ascii) : Z := rfind_from c p 0%Z (-1)%Z.

(** [os.path.splitext(p)] of [posixpath] (separator [/], extension
    separator [.]): the extension starts at the last dot of the last path
    component, unless that component has only dots before it. *)
Definition splitext (p : string) : string * string :=
  let l := of_str p in
  let sepIndex := rfind "/" l in
  let dotIndex := rfind "." l in
  if (sepIndex <? dotIndex)%Z then
    let filenameIndex := (sepIndex + 1)%Z in
    let leading :=
      take (Z.to_nat (dotIndex - filenameIndex)) (drop (Z.to_nat filenameIndex) l) in
    if existsb (fun c => negb (Ascii.eqb c ".")) leading
    then (to_str (take (Z.to_nat dotIndex) l), to_str (drop (Z.to_nat dotIndex) l))
    else (p, "")
  else (p, "").

Section FileUpload.

Variable sha256_hexdigest : string -> string.

(** Reading the text of a [.eml] file with the [email] module, and of a
    [.msg] file with [extract_msg]: the text, or the exception raised
    (file missing, undecodable, library not installed, ...). *)
Variable read_eml : string -> result string.
Variable read_msg : string -> result string.

Definition process_email_file (post : string -> post_outcome)
    (file_path : string) (email_hash_set : HashSet)
    : HashSet * result ProcessingResult :=
  let ext := lower (snd (splitext file_path)) in
  if String.eqb ext ".eml" then
    match read_eml file_path with
    | Ok email_text =>
        process_email sha256_hexdigest post email_text None email_hash_set
    | Raise e => (email_hash_set, Raise e)
    end
  else if String.eqb ext ".msg" then
    match read_msg file_path with
    | Ok email_text =>
        process_email sha256_hexdigest post email_text None email_hash_set
    | Raise e => (email_hash_set, Raise e)
    end
  else
    (email_hash_set,
     Raise (ValueError
              "Unsupported file type. Only .eml and .msg files are supported.")).

End FileUpload.

(** * Collaborators used in examples *)

(** A backend that answers 200 with [content] as the content of the first
    choice's message. *)
Definition answering (content : string) : string -> post_outcome := fun _ =>
  Responded
    {| status_code := 200;
       text := "";
       json := Ok (JDict [("choices",
                           JList [JDict [("message",
                                          JDict [("content", JStr content)])]])]) |}.

(** A backend that answers with a status and a body that is not JSON. *)
Definition answering_status (status : Z) (body : string) : string -> post_outcome :=
  fun _ =>
    Responded {| status_code := status;
                 text := body;
                 json := Raise (JSONDecodeError "Expecting value") |}.

(** A backend that cannot be reached: [requests.post] raises. *)
Definition unreachable : string -> post_outcome := fun _ =>
  Raised (ConnectionError "Max retries exceeded").

(** A backend that does not answer in time. *)
Definition timing_out : string -> post_outcome := fun _ =>
  Raised (Timeout "Read timed out").

(** Three lines of text. *)
Definition three_lines (l1 l2 l3 : string) : string :=
  l1 +:+ String newline l2 +:+ String newline l3.

(** The classifier call fails: [requests.post] raises, or the response
    has a status other than 200. *)
Definition call_fails (outcome : post_outcome) : Prop :=
  match outcome with
  | Raised _ => True
  | Responded response => status_code response <> 200%Z
  end.

(** [response.json()["choices"][0]["message"]["content"]] with the
    defaults of line 78, as a [str]. *)
Definition message_content (response : Response) : result string :=
  result ← json response;
  choices ← py_get result "choices" (JList [JDict []]);
  choice ← py_item0 choices;
  message ← py_get choice "message" (JDict []);
  content ← py_get message "content" (JStr "Unknown");
  py_as_str content.

(** The reason given for a duplicate with this hash. *)
Definition reason_for (email_hash : string) : string :=
  "Duplicate email detected (hash: " +:+ email_hash +:+ ").".

(** The attachments the loop of [process_email] visits. *)
Definition visited (attachments : option (list string)) : list string :=
  from_option id [] attachments.

(** * Reference readings of the patterns

    What a pattern finds, written without the matcher: the run of
    characters that follows a label.  The matcher is proved equal to
    these below. *)

(** The first suffix of [s], from the left, at which [f] answers. *)
Fixpoint first_at {X : Type} (f : list ascii -> option X) (s : list ascii) : option X :=
  match f s with
  | Some x => Some x
  | None =>
      match s with
      | [] => None
      | _ :: s' => first_at f s'
      end
  end.

(** At [s]: the label [Deal:], then the longest run of word characters,
    whitespace and hyphens, which must not be empty; the run stripped. *)
Definition deal_here (s : list ascii) : option (list ascii) :=
  match strip_prefix (of_str "Deal:") s with
  | Some rest =>
      let run := take_while deal_char rest in
      if nonempty run then Some (strip_chars run) else None
  | None => None
  end.

Definition deal_name_of (email_text : string) : option string :=
  to_str <$> first_at deal_here (of_str email_text).

(** The values stored under [amount] and [expiration_date]. *)
Definition amount_of (email_text : string) : option string :=
  match search amount_pattern email_text with
  | Some g => g
  | None => None
  end.

Definition expiration_date_of (email_text : string) : option string :=
  match search date_pattern email_text with
  | Some g => g
  | None => None
  end.

(** At [s]: the label [Confidence:], whitespace, then the longest run of
    digits and dots, which must not be empty. *)
Definition confidence_here (s : list ascii) : option (list ascii) :=
  match strip_prefix (of_str "Confidence:") s with
  | Some rest =>
      let run := take_while digit_or_dot (drop_while is_space rest) in
      if nonempty run then Some run else None
  | None => None
  end.

Definition confidence_of (line : string) : option pyfloat :=
  match first_at confidence_here (of_str line) with
  | Some numeral =>
      match py_float (to_str numeral) with
      | Ok x => Some x
      | Raise _ => None
      end
  | None => None
  end.

(** The dict [extract_fields] returns, as a function of the text. *)
Definition fields_of (email_text : string) : Fields :=
  <["expiration_date" := expiration_date_of email_text]>
  (<["amount" := amount_of email_text]>
   (<["deal_name" := deal_name_of email_text]> ∅)).

(** The three keys of the dict. *)
Definition field_keys : gset string :=
  {["deal_name"]} ∪ {["amount"]} ∪ {["expiration_date"]}.

(** ** The deal name as the specification words it

    The text right after the first occurrence of the label [Deal:]: the
    longest run of letters, digits, whitespace and hyphens, stripped;
    [None] when the label does not occur. *)

Definition letter_digit_space_hyphen (c : ascii) : bool :=
  is_alnum c || is_space c || Ascii.eqb c "-".

Fixpoint after_first_label (label s : list ascii) : option (list ascii) :=
  match strip_prefix label s with
  | Some rest => Some rest
  | None =>
      match s with
      | [] => None
      | _ :: s' => after_first_label label s'
      end
  end.

Definition deal_name_as_stated (email_text : string) : option string :=
  match after_first_label (of_str "Deal:") (of_str email_text) with
  | Some rest =>
      Some (to_str (strip_chars (take_while letter_digit_space_hyphen rest)))
  | None => None
  end.

(** The pattern ends with its group on every path. *)
Fixpoint ends_in_group (r : Re.regex) : bool :=
  match r with
  | Re.Grp _ => true
  | Re.Seq _ r2 => ends_in_group r2
  | _ => false
  end.

(** What group 1 of [\s*([b]+)] holds at [s] when the class [b] has no
    whitespace in it. *)
Definition run_after_space (b : ascii -> bool) (s : list ascii) : option (list ascii) :=
  let run := take_while b (drop_while is_space s) in
  if nonempty run then Some run else None.

(** The group [([b]+)] followed by the end of the pattern. *)
Definition group_run (b : ascii -> bool) (s : list ascii) : option (option (list ascii)) :=
  if nonempty (take_while b s) then Some (Some (take_while b s)) else None.

(** * Sessions and the upload wrapper *)

(** A session of checks: the texts are checked one after the other, each
    on the set the previous check left; the flags in order. *)
Fixpoint check_all (sha256_hexdigest : string -> string) (texts : list string)
    (email_hash_set : HashSet) : HashSet * list bool :=
  match texts with
  | [] => (email_hash_set, [])
  | email_text :: texts' =>
      let '(email_hash_set, (flag, _)) :=
        is_duplicate sha256_hexdigest email_text email_hash_set in
      let '(email_hash_set, flags) :=
        check_all sha256_hexdigest texts' email_hash_set in
      (email_hash_set, flag :: flags)
  end.

(** [str(e)] of an exception: its message. *)
Definition exn_str (e : exn) : string :=
  match e with
  | ConnectionError msg | Timeout msg | JSONDecodeError msg
  | AttributeError msg | IndexError msg | KeyError msg | TypeError msg
  | ValueError msg | ImportError msg | OSError msg => msg
  end.

(** The file object Gradio hands over: [name] is the path of the
    temporary file. *)
Record FileObj : Type := { name : string }.

Section Gradio.

Variable sha256_hexdigest : string -> string.
Variable read_eml : string -> result string.
Variable read_msg : string -> result string.

(** [json.dumps(result, indent=4)] *)
Variable json_dumps : ProcessingResult -> string.

(** [file_obj] is [None] when nothing was uploaded. *)
Definition gradio_process_email (post : string -> post_outcome)
    (file_obj : option FileObj) (email_hash_set : HashSet)
    : HashSet * string :=
  match file_obj with
  | None => (email_hash_set, "No file uploaded.")
  | Some file_obj =>
      match process_email_file sha256_hexdigest read_eml read_msg post
              (name file_obj) email_hash_set with
      | (email_hash_set, Ok result) => (email_hash_set, json_dumps result)
      | (email_hash_set, Raise e) =>
          (email_hash_set, "Error processing file: " +:+ exn_str e)
      end
  end.

End Gradio.

(** A non-empty text on one line, without whitespace at either end. *)
Definition trimmed_line (s : string) : Prop :=
  s <> "" /\ strip s = s /\ newline ∉ of_str s.


(** The classification of a response that names no request. *)
Definition unknown_classification : ClassificationResult :=
  {| primary_request := "Unknown";
     sub_request := None;
     confidence := None;
     details := "DeepSeek R1 analysis confirms the classification." |}.


(** No whitespace at either end. *)
Definition no_space_ends (l : list ascii) : Prop :=
  match l with
  | c :: _ => is_space c = false
  | [] => True
  end
  /\ match rev l with
     | d :: _ => is_space d = false
     | [] => True
     end.

(** ** The amount and the date, read directly *)

(** A dot and two digits at the start of [s], or nothing. *)
Definition cents (s : list ascii) : list ascii :=
  match s with
  | c :: d1 :: d2 :: _ =>
      if Ascii.eqb "." c && is_digit d1 && is_digit d2 then [c; d1; d2] else []
  | _ => []
  end.

(** The longest run of digits and commas at the start of [s], which
    must not be empty, with the cents that follow it. *)
Definition amount_group (s : list ascii) : option (list ascii) :=
  let run := take_while digit_or_comma s in
  if nonempty run then Some (run ++ cents (drop_while digit_or_comma s))
  else None.

(** At [s]: a dollar sign, whitespace, then the amount. *)
Definition amount_here (s : list ascii) : option (list ascii) :=
  match s with
  | c :: s' =>
      if Ascii.eqb "$" c then amount_group (drop_while is_space s') else None
  | [] => None
  end.

(** One digit and a slash, or two digits and a slash, at the start of
    [s]: what follows the slash. *)
Definition day_or_month (s : list ascii) : option (list ascii) :=
  match s with
  | d1 :: s1 =>
      if is_digit d1 then
        match s1 with
        | c2 :: s2 =>
            if is_digit c2 then
              match s2 with
              | c3 :: s3 => if Ascii.eqb "/" c3 then Some s3 else None
              | [] => None
              end
            else if Ascii.eqb "/" c2 then Some s2 else None
        | [] => None
        end
      else None
  | [] => None
  end.

(** Four digits at the start of [s]: what follows them. *)
Definition year (s : list ascii) : option (list ascii) :=
  match s with
  | d1 :: d2 :: d3 :: d4 :: s' =>
      if is_digit d1 && is_digit d2 && is_digit d3 && is_digit d4
      then Some s' else None
  | _ => None
  end.

(** At [s]: day or month, slash, day or month, slash, four digits; the
    text up to the end of the four digits. *)
Definition date_here (s : list ascii) : option (list ascii) :=
  match day_or_month s with
  | Some s1 =>
      match day_or_month s1 with
      | Some s2 =>
          match year s2 with
          | Some s3 => Some (take (length s - length s3) s)
          | None => None
          end
      | None => None
      end
  | None => None
  end.

(** One or two digits. *)
Definition one_or_two_digits (l : list ascii) : Prop :=
  (length l = 1%nat \/ length l = 2%nat) /\ forallb is_digit l = true.

(** ** Paths *)

(** The part of a path before the file name: empty, or ending with a
    slash. *)
Definition dir_prefix (pre : list ascii) : Prop :=
  pre = [] \/ exists pre', pre = pre' ++ ["/"%char].

(** [c] does not occur in [l]. *)
Definition no_char (c : ascii) (l : list ascii) : Prop :=
  Forall (fun x => Ascii.eqb x c = false) l.

(** The ValueError of [process_email_file]. *)
Definition unsupported_file_type : exn :=
  ValueError "Unsupported file type. Only .eml and .msg files are supported.".


(** * Facts about the matcher *)

Section MatcherFacts.

Context {A : Type}.
Implicit Types (k : @Re.cont A) (s : list ascii) (g : option (list ascii)).

(** Greedy iteration of a character class, by recursion on the subject. *)
Fixpoint greedy (p : ascii -> bool) s g k : option A :=
  match s with
  | c :: s' =>
      if p c then
        match greedy p s' g k with
        | Some x => Some x
        | None => k s g
        end
      else k s g
  | [] => k s g
  end.

Lemma star_cls p n s g k :
  (length s <= n)%nat ->
  Re.star (Re.rmatch (Re.Cls p)) n s g k = greedy p s g k.
Proof.
  revert s; induction n as [|n IH]; intros s Hn.
  - destruct s; [reflexivity | simpl in Hn; lia].
  - destruct s as [|c s']; [reflexivity|].
    simpl. destruct (p c); [|reflexivity].
    assert (Hlt : (length s' <? S (length s'))%nat = true)
      by (apply Nat.ltb_lt; lia).
    rewrite Hlt, IH by (simpl in Hn; lia). reflexivity.
Qed.

Lemma rmatch_star_cls p s g k :
  Re.rmatch (Re.Star (Re.Cls p)) s g k = greedy p s g k.
Proof. simpl. apply star_cls. lia. Qed.

Lemma rmatch_lit l s g k :
  Re.rmatch (Re.Lit l) s g k =
  match strip_prefix l s with
  | Some rest => k rest g
  | None => None
  end.
Proof.
  revert s; induction l as [|c l IH]; intros s; [reflexivity|].
  destruct s as [|x s]; [reflexivity|].
  simpl. destruct (Ascii.eqb c x); [apply IH | reflexivity].
Qed.

Lemma greedy_ext p s g k k' :
  (forall s' g', k s' g' = k' s' g') ->
  greedy p s g k = greedy p s g k'.
Proof.
  intros E. induction s as [|c s IH]; simpl; [apply E|].
  destruct (p c); [rewrite IH, E; reflexivity | apply E].
Qed.

(** A continuation that always answers is reached after the longest run. *)
Lemma greedy_total p s g k :
  (forall s' g', is_Some (k s' g')) ->
  greedy p s g k = k (drop_while p s) g.
Proof.
  intros Hk. induction s as [|c s IH]; [reflexivity|].
  simpl. destruct (p c); [|reflexivity].
  rewrite IH. destruct (Hk (drop_while p s) g) as [x ->]. reflexivity.
Qed.

(** Whatever the matcher answers, the continuation answered it. *)
Lemma star_inv (m : @Re.matcher A) :
  (forall s g k x, m s g k = Some x -> exists s' g', k s' g' = Some x) ->
  forall n s g k x,
    Re.star m n s g k = Some x -> exists s' g', k s' g' = Some x.
Proof.
  intros Hm. induction n as [|n IH]; intros s g k x H; simpl in H.
  - eauto.
  - destruct (m s g _) as [y|] eqn:E.
    + injection H as ->. apply Hm in E. destruct E as (s' & g' & E).
      destruct (length s' <? length s)%nat; [eauto | discriminate].
    + eauto.
Qed.

Lemma rmatch_inv r :
  forall s g k x,
    Re.rmatch r s g k = Some x -> exists s' g', k s' g' = Some x.
Proof.
  induction r as [|p|r1 IH1 r2 IH2|r1 IH1 r2 IH2|r IH|r IH];
    intros s g k x H; simpl in H.
  - eauto.
  - destruct s as [|c s]; [discriminate|].
    destruct (p c); [eauto | discriminate].
  - apply IH1 in H. destruct H as (s' & g' & H). eauto.
  - destruct (Re.rmatch r1 s g k) eqn:E; [injection H as ->|]; eauto.
  - eapply star_inv; eauto.
  - apply IH in H. destruct H as (s' & g' & H). eauto.
Qed.

(** After a group, the continuation sees the group set. *)
Lemma rmatch_grp_set r s g k x :
  Re.rmatch (Re.Grp r) s g k = Some x ->
  exists s' t, k s' (Some t) = Some x.
Proof.
  simpl. intros H. apply rmatch_inv in H.
  destruct H as (s' & _ & H). eauto.
Qed.

End MatcherFacts.

Lemma ends_in_group_set {A : Type} r :
  ends_in_group r = true ->
  forall s g (k : @Re.cont A) x,
    Re.rmatch r s g k = Some x -> exists s' t, k s' (Some t) = Some x.
Proof.
  induction r as [|p|r1 _ r2 IH2|r1 _ r2 _|r _|r _]; intros He; try discriminate.
  - intros s g k x H. simpl in H. apply rmatch_inv in H.
    destruct H as (s' & g' & H). eapply IH2; eauto.
  - intros s g k x H. eapply rmatch_grp_set; eauto.
Qed.

Lemma re_match_group_set r s x :
  ends_in_group r = true -> Re.re_match r s = Some x -> is_Some x.
Proof.
  intros He H. unfold Re.re_match in H.
  eapply ends_in_group_set in H; [|exact He].
  destruct H as (s' & t & H). injection H as <-. eauto.
Qed.

Lemma re_search_first_at r s : Re.re_search r s = first_at (Re.re_match r) s.
Proof. induction s as [|c s IH]; simpl; [|rewrite IH]; reflexivity. Qed.

Lemma first_at_ext {X : Type} (f f' : list ascii -> option X) s :
  (forall t, f t = f' t) -> first_at f s = first_at f' s.
Proof.
  intros E. induction s as [|c s IH]; simpl; rewrite E; [|rewrite IH]; reflexivity.
Qed.

Lemma first_at_some {X : Type} (f : list ascii -> option X) s x :
  first_at f s = Some x -> exists t, f t = Some x.
Proof.
  induction s as [|c s IH]; simpl; destruct (f _) eqn:E; intros H;
    try discriminate; try (injection H as ->); eauto.
Qed.

Lemma re_search_group_set r s x :
  ends_in_group r = true -> Re.re_search r s = Some x -> is_Some x.
Proof.
  intros He H. rewrite re_search_first_at in H.
  apply first_at_some in H. destruct H as (t & H).
  eapply re_match_group_set; eauto.
Qed.

(** ** The shape [\s*([b]+)] *)

Lemma take_drop_while p (s : list ascii) :
  take (length s - length (drop_while p s)) s = take_while p s.
Proof.
  induction s as [|c s IH]; [reflexivity|].
  simpl. destruct (p c).
  - assert (Hle : (length (drop_while p s) <= length s)%nat).
    { clear. induction s as [|c s IH]; simpl; [lia|].
      destruct (p c); simpl; lia. }
    replace (S (length s) - length (drop_while p s))%nat
      with (S (length s - length (drop_while p s))) by lia.
    simpl. rewrite IH. reflexivity.
  - simpl. rewrite Nat.sub_diag. reflexivity.
Qed.

Lemma rmatch_group_plus b s g :
  Re.rmatch (Re.Grp (Re.Plus (Re.Cls b))) s g (fun _ g' => Some g')
  = group_run b s.
Proof.
  unfold group_run. destruct s as [|c s]; [reflexivity|].
  cbn -[Re.star take Nat.sub length]. destruct (b c) eqn:Hb; [|reflexivity].
  fold (Re.rmatch (A:=option (list ascii)) (Re.Star (Re.Cls b)) s g
          (fun s' _ => Some (Some (take (length (c :: s) - length s') (c :: s))))).
  rewrite rmatch_star_cls, greedy_total by eauto.
  f_equal. f_equal.
  pose proof (take_drop_while b (c :: s)) as H.
  simpl in H. rewrite Hb in H. exact H.
Qed.

Lemma rmatch_space_group b s g :
  Re.rmatch (Re.Seq (Re.Star (Re.Cls is_space)) (Re.Grp (Re.Plus (Re.Cls b))))
    s g (fun _ g' => Some g')
  = greedy is_space s g (fun s' _ => group_run b s').
Proof.
  change (Re.rmatch (Re.Star (Re.Cls is_space)) s g
            (fun s' g' => Re.rmatch (Re.Grp (Re.Plus (Re.Cls b))) s' g'
                            (fun _ g'' => Some g''))
          = greedy is_space s g (fun s' _ => group_run b s')).
  rewrite rmatch_star_cls. apply greedy_ext.
  intros s' g'. apply rmatch_group_plus.
Qed.

Lemma space_not_digit_or_dot c : is_space c = true -> digit_or_dot c = false.
Proof. destruct c as [[] [] [] [] [] [] [] []]; vm_compute; congruence. Qed.

Lemma space_is_deal_char c : is_space c = true -> deal_char c = true.
Proof. unfold deal_char. intros ->. apply orb_true_iff. left. apply orb_true_r. Qed.

(** A class without whitespace: the group is the run after all the
    whitespace, and giving whitespace back never helps. *)
Lemma greedy_space_disjoint b s g :
  (forall c, is_space c = true -> b c = false) ->
  greedy is_space s g (fun s' _ => group_run b s')
  = Some <$> run_after_space b s.
Proof.
  intros Hd.
  assert (Hrun : forall t, group_run b t
                 = Some <$> (if nonempty (take_while b t)
                             then Some (take_while b t) else None)).
  { intros t. unfold group_run. destruct (nonempty _); reflexivity. }
  unfold run_after_space.
  induction s as [|c s IH]; [apply Hrun|].
  simpl. destruct (is_space c) eqn:Hc; [|apply Hrun].
  rewrite IH. destruct (nonempty _); [reflexivity|].
  unfold group_run. simpl. rewrite (Hd c Hc). reflexivity.
Qed.

Lemma strip_chars_space c l :
  is_space c = true -> strip_chars (c :: l) = strip_chars l.
Proof. intros Hc. unfold strip_chars. simpl. rewrite Hc. reflexivity. Qed.

(** A class with the whitespace in it: the group is the run from the
    first character that is not whitespace or, when the run is all
    whitespace, its last character; stripped, it is the stripped run after
    the label either way. *)
Lemma greedy_space_deal s g :
  (fun m => strip_chars (from_option id [] m))
    <$> greedy is_space s g (fun s' _ => group_run deal_char s')
  = (if nonempty (take_while deal_char s)
     then Some (strip_chars (take_while deal_char s)) else None).
Proof.
  induction s as [|c s IH]; [reflexivity|].
  simpl. destruct (is_space c) eqn:Hc.
  - rewrite (space_is_deal_char c Hc). simpl.
    destruct (greedy is_space s g _) as [m|] eqn:E.
    + simpl in IH |- *. destruct (nonempty (take_while deal_char s));
        [|discriminate].
      rewrite strip_chars_space by exact Hc. exact IH.
    + simpl in IH. destruct (take_while deal_char s) eqn:Et;
        [|discriminate].
      unfold group_run. simpl. rewrite (space_is_deal_char c Hc), Et.
      reflexivity.
  - unfold group_run. simpl. destruct (deal_char c); reflexivity.
Qed.

Lemma first_at_fmap {X Y : Type} (h : X -> Y) (f : list ascii -> option X) s :
  first_at (fun t => h <$> f t) s = h <$> first_at f s.
Proof.
  induction s as [|c s IH]; simpl; destruct (f _); simpl; auto.
Qed.

Lemma re_match_deal s :
  (fun m => strip_chars (from_option id [] m)) <$> Re.re_match deal_pattern s
  = deal_here s.
Proof.
  unfold Re.re_match, deal_pattern, deal_here.
  change (Re.rmatch (Re.Seq ?l ?r) s None ?k)
    with (Re.rmatch l s None (fun s' g' => Re.rmatch r s' g' k)).
  rewrite rmatch_lit. destruct (strip_prefix _ s) as [rest|]; [|reflexivity].
  rewrite rmatch_space_group. apply greedy_space_deal.
Qed.

Lemma re_search_deal s :
  (fun m => strip_chars (from_option id [] m)) <$> Re.re_search deal_pattern s
  = first_at deal_here s.
Proof.
  rewrite re_search_first_at, <- first_at_fmap.
  apply first_at_ext. intros t. apply re_match_deal.
Qed.

Lemma re_match_confidence s :
  Re.re_match confidence_pattern s = Some <$> confidence_here s.
Proof.
  unfold Re.re_match, confidence_pattern, confidence_here.
  change (Re.rmatch (Re.Seq ?l ?r) s None ?k)
    with (Re.rmatch l s None (fun s' g' => Re.rmatch r s' g' k)).
  rewrite rmatch_lit. destruct (strip_prefix _ s) as [rest|]; [|reflexivity].
  rewrite rmatch_space_group.
  apply greedy_space_disjoint, space_not_digit_or_dot.
Qed.

Lemma re_search_confidence s :
  Re.re_search confidence_pattern s = Some <$> first_at confidence_here s.
Proof.
  rewrite re_search_first_at, <- first_at_fmap.
  apply first_at_ext. intros t. apply re_match_confidence.
Qed.

(** * Field extraction never raises *)

Lemma strip_to_str l : strip (to_str l) = to_str (strip_chars l).
Proof.
  unfold strip, to_str. rewrite list_ascii_of_string_of_list_ascii. reflexivity.
Qed.

Lemma ends_in_group_deal : ends_in_group deal_pattern = true.
Proof. reflexivity. Qed.

(** The value stored under [deal_name]. *)
Lemma deal_name_value email_text :
  match search deal_pattern email_text with
  | Some g => s ← group1_strip g; Ok (Some s)
  | None => Ok None
  end = Ok (deal_name_of email_text).
Proof.
  unfold search, deal_name_of. rewrite <- re_search_deal.
  destruct (Re.re_search deal_pattern (of_str email_text)) as [g|] eqn:E;
    [|reflexivity].
  destruct (re_search_group_set _ _ _ ends_in_group_deal E) as [t ->].
  simpl. rewrite strip_to_str. reflexivity.
Qed.

Lemma extract_fields_ok email_text :
  extract_fields email_text = Ok (fields_of email_text).
Proof.
  unfold extract_fields. rewrite deal_name_value. reflexivity.
Qed.

(** The scenario of the specification, and some texts that exercise the
    backtracking of the amount and date patterns. *)
Example fields_of_scenario :
  let fields :=
    fields_of "Hello, Deal: Project Falcon, amount due $12,500.00 by 5/1/2025" in
  fields !! "deal_name" = Some (Some "Project Falcon")
  /\ fields !! "amount" = Some (Some "12,500.00")
  /\ fields !! "expiration_date" = Some (Some "5/1/2025").
Proof. repeat split; vm_compute; reflexivity. Qed.

Example fields_of_backtracking :
  let fields := fields_of "pay $ 1,2.345 on 11/222/2025 or 12/3/45678" in
  fields !! "deal_name" = Some None
  /\ fields !! "amount" = Some (Some "1,2.34")
  /\ fields !! "expiration_date" = Some (Some "12/3/4567").
Proof. repeat split; vm_compute; reflexivity. Qed.

Example splitext_examples :
  splitext "inbox/notice.EML" = ("inbox/notice", ".EML")
  /\ splitext "inbox.d/.profile" = ("inbox.d/.profile", "")
  /\ splitext "inbox.d/..x.Msg" = ("inbox.d/..x", ".Msg")
  /\ splitext "inbox.d/notice" = ("inbox.d/notice", "").
Proof. repeat split; vm_compute; reflexivity. Qed.

Lemma for_each_extract_fields l :
  for_each extract_fields l = Ok (map fields_of l).
Proof.
  induction l as [|a l IH]; [reflexivity|].
  simpl. rewrite extract_fields_ok, IH. reflexivity.
Qed.

(** * Duplicate detection *)

Section PipelineFacts.

Variable sha256_hexdigest : string -> string.

Lemma is_duplicate_seen email_text (st : HashSet) :
  sha256_hexdigest email_text ∈ st ->
  is_duplicate sha256_hexdigest email_text st = (st, (true, reason_for (sha256_hexdigest email_text))).
Proof.
  intros Hin. unfold is_duplicate, compute_email_hash.
  rewrite bool_decide_eq_true_2 by exact Hin. reflexivity.
Qed.

Lemma is_duplicate_new email_text (st : HashSet) :
  sha256_hexdigest email_text ∉ st ->
  is_duplicate sha256_hexdigest email_text st
  = ({[sha256_hexdigest email_text]} ∪ st, (false, "")).
Proof.
  intros Hin. unfold is_duplicate, compute_email_hash.
  rewrite bool_decide_eq_false_2 by exact Hin. reflexivity.
Qed.

(** The store only grows. *)
Lemma is_duplicate_grows email_text (st : HashSet) :
  st ⊆ (is_duplicate sha256_hexdigest email_text st).1
  /\ sha256_hexdigest email_text ∈ (is_duplicate sha256_hexdigest email_text st).1.
Proof.
  destruct (decide (sha256_hexdigest email_text ∈ st)) as [Hin|Hin].
  - rewrite is_duplicate_seen by exact Hin. simpl. split; [reflexivity | exact Hin].
  - rewrite is_duplicate_new by exact Hin. simpl. split; set_solver.
Qed.


(** The result of [process_email], once the classifier call has
    returned. *)
Lemma process_email_ok post email_text attachments (st : HashSet) c :
  call_openrouter_deepseek post email_text = Ok c ->
  process_email sha256_hexdigest post email_text attachments st
  = ((is_duplicate sha256_hexdigest email_text st).1,
     Ok {| duplicate := (is_duplicate sha256_hexdigest email_text st).2.1;
           duplicate_reason := (is_duplicate sha256_hexdigest email_text st).2.2;
           classification := c;
           extracted_fields := fields_of email_text;
           attachments_extracted_fields := map fields_of (visited attachments) |}).
Proof.
  intros Hc. unfold process_email.
  destruct (is_duplicate _ _ _) as [st' [flag reason]].
  rewrite Hc, extract_fields_ok. simpl.
  destruct attachments as [[|a l]|]; simpl; try reflexivity.
  rewrite extract_fields_ok, for_each_extract_fields. reflexivity.
Qed.

Lemma process_email_raise post email_text attachments (st : HashSet) e :
  call_openrouter_deepseek post email_text = Raise e ->
  process_email sha256_hexdigest post email_text attachments st
  = ((is_duplicate sha256_hexdigest email_text st).1, Raise e).
Proof.
  intros Hc. unfold process_email.
  destruct (is_duplicate _ _ _) as [st' [flag reason]].
  rewrite Hc. reflexivity.
Qed.

End PipelineFacts.

(** * Labels and substrings *)

Lemma strip_prefix_contains sub l rest :
  strip_prefix sub l = Some rest -> contains sub l = true.
Proof. intros H. destruct l; simpl; rewrite H; reflexivity. Qed.

Lemma first_at_deal_absent s :
  contains (of_str "Deal:") s = false -> first_at deal_here s = None.
Proof.
  induction s as [|c s IH]; intros H.
  - reflexivity.
  - assert (Hp : strip_prefix (of_str "Deal:") (c :: s) = None).
    { destruct (strip_prefix (of_str "Deal:") (c :: s)) eqn:E; [|reflexivity].
      apply strip_prefix_contains in E. congruence. }
    assert (Hs : contains (of_str "Deal:") s = false).
    { change (contains (of_str "Deal:") (c :: s))
        with (match strip_prefix (of_str "Deal:") (c :: s) with
              | Some _ => true
              | None => contains (of_str "Deal:") s
              end) in H.
      rewrite Hp in H. exact H. }
    change (first_at deal_here (c :: s))
      with (match deal_here (c :: s) with
            | Some x => Some x
            | None => first_at deal_here s
            end).
    unfold deal_here at 1. rewrite Hp. apply IH, Hs.
Qed.

Lemma deal_name_absent email_text :
  contains (of_str "Deal:") (of_str email_text) = false ->
  deal_name_of email_text = None.
Proof.
  intros H. unfold deal_name_of. rewrite first_at_deal_absent by exact H.
  reflexivity.
Qed.

Lemma dom_fields_of email_text : dom (fields_of email_text) = field_keys.
Proof.
  unfold fields_of, field_keys, Fields.
  rewrite !dom_insert_L, dom_empty_L. set_solver.
Qed.

(** * The claims *)




(** C7. Field extraction returns for every text, and the dict it returns
    has the keys deal_name, amount and expiration_date and no other; each
    value is a string or None. *)
Theorem C7_extract_fields_total_three_keys (email_text : string) :
  exists fields : Fields,
    extract_fields email_text = Ok fields
    /\ dom fields = field_keys
    /\ size fields = 3%nat
    /\ (forall key,
          is_Some (fields !! key)
          <-> key = "deal_name" \/ key = "amount" \/ key = "expiration_date")
    /\ (forall key v,
          fields !! key = Some v -> v = None \/ exists s : string, v = Some s).
Proof.
  exists (fields_of email_text).
  split; [apply extract_fields_ok|].
  split; [apply dom_fields_of|].
  split.
  { pose proof (size_dom (fields_of email_text)) as Hs.
    rewrite dom_fields_of in Hs. unfold Fields in *. rewrite <- Hs.
    unfold field_keys.
    rewrite size_union, size_union, !size_singleton; [reflexivity| |].
    - apply disjoint_singleton_l. rewrite elem_of_singleton. discriminate.
    - apply disjoint_union_l. split; apply disjoint_singleton_l;
        rewrite elem_of_singleton; discriminate. }
  split.
  - intros key.
    pose proof (elem_of_dom (D:=gset string) (fields_of email_text) key) as Hk.
    rewrite dom_fields_of in Hk. unfold Fields in *. rewrite <- Hk.
    unfold field_keys. rewrite !elem_of_union, !elem_of_singleton. tauto.
  - intros key [s|] _; eauto.
Qed.

(** C8. One dict per attachment, in the order of the input: the list
    returned pairs off with the attachments, each entry being what
    [extract_fields] returns on that attachment; without attachments
    (None or an empty list) it is the empty list; and of two attachments
    of which the second has no [Deal:] label, the second entry has
    deal_name None. *)
Theorem C8_attachments_one_result_each_in_order
    (sha256_hexdigest : string -> string) (post : string -> post_outcome)
    (email_text : string) (attachments : option (list string)) (st : HashSet)
    (c : ClassificationResult) :
  call_openrouter_deepseek post email_text = Ok c ->
  exists r,
    (process_email sha256_hexdigest post email_text attachments st).2 = Ok r
    /\ Forall2 (fun attachment fields => extract_fields attachment = Ok fields)
         (visited attachments) (attachments_extracted_fields r)
    /\ length (attachments_extracted_fields r) = length (visited attachments)
    /\ (attachments = None \/ attachments = Some [] ->
        attachments_extracted_fields r = [])
    /\ (forall a1 a2,
          attachments = Some [a1; a2] ->
          contains (of_str "Deal:") (of_str a2) = false ->
          exists f1 f2,
            attachments_extracted_fields r = [f1; f2]
            /\ extract_fields a1 = Ok f1
            /\ extract_fields a2 = Ok f2
            /\ f2 !! "deal_name" = Some None).
Proof.
  intros Hc. rewrite (process_email_ok _ _ _ attachments st _ Hc).
  eexists. split; [reflexivity|]. cbn [attachments_extracted_fields].
  split.
  { induction (visited attachments) as [|a l IH]; simpl; constructor;
      [apply extract_fields_ok | exact IH]. }
  split; [apply length_map|].
  split.
  - intros [-> | ->]; reflexivity.
  - intros a1 a2 -> Habsent. exists (fields_of a1), (fields_of a2).
    split; [reflexivity|]. split; [apply extract_fields_ok|].
    split; [apply extract_fields_ok|].
    unfold fields_of, Fields. rewrite !lookup_insert_ne by discriminate.
    rewrite lookup_insert_eq. f_equal. apply deal_name_absent, Habsent.
Qed.

Lemma C8_witness :
  exists r f1 f2,
    (process_email (fun s => s) (answering "Fee Payment") "hello"
       (Some ["Deal: Falcon"; "see the attached notice"]) ∅).2 = Ok r
    /\ attachments_extracted_fields r = [f1; f2]
    /\ f2 !! "deal_name" = Some None.
Proof.
  destruct (C8_attachments_one_result_each_in_order
              (fun s => s) (answering "Fee Payment") "hello"
              (Some ["Deal: Falcon"; "see the attached notice"]) ∅
              {| primary_request := "Fee Payment";
                 sub_request := None;
                 confidence := None;
                 details := "DeepSeek R1 analysis confirms the classification." |})
    as (r & Hr & _ & _ & _ & H2); [vm_compute; reflexivity|].
  destruct (H2 "Deal: Falcon" "see the attached notice")
    as (f1 & f2 & Hl & _ & _ & Hd); [reflexivity | vm_compute; reflexivity |].
  exists r, f1, f2. split; [exact Hr|]. split; [exact Hl | exact Hd].
Defined.

(** * The classifier call *)

(** With status 200 the call is the parse of the message content. *)
Lemma call_openrouter_deepseek_200 post email_text response :
  post (prompt email_text) = Responded response ->
  status_code response = 200%Z ->
  call_openrouter_deepseek post email_text
  = (response_text ← message_content response;
     Ok {| primary_request := parse_primary (response_lines response_text);
           sub_request := parse_sub (response_lines response_text);
           confidence := parse_confidence (response_lines response_text);
           details := "DeepSeek R1 analysis confirms the classification." |}).
Proof.
  intros Hp Hs. unfold call_openrouter_deepseek, message_content.
  rewrite Hp, Hs. simpl.
  destruct (json response) as [v|]; [|reflexivity]. simpl.
  destruct (py_get v _ _) as [v1|]; [|reflexivity]. simpl.
  destruct (py_item0 v1) as [v2|]; [|reflexivity]. simpl.
  destruct (py_get v2 _ _) as [v3|]; [|reflexivity]. simpl.
  destruct (py_get v3 _ _) as [v4|]; [|reflexivity]. simpl.
  destruct (py_as_str v4); reflexivity.
Qed.

Lemma call_openrouter_deepseek_not_200 post email_text response :
  post (prompt email_text) = Responded response ->
  status_code response <> 200%Z ->
  call_openrouter_deepseek post email_text
  = Ok {| primary_request := "Error";
          sub_request := None;
          confidence := Some (Finite 0);
          details := "Error calling DeepSeek API: "
                     +:+ str_of_int (status_code response)
                     +:+ " " +:+ text response |}.
Proof.
  intros Hp Hs. unfold call_openrouter_deepseek. rewrite Hp.
  apply Z.eqb_neq in Hs. rewrite Hs. reflexivity.
Qed.

Lemma call_openrouter_deepseek_raised post email_text e :
  post (prompt email_text) = Raised e ->
  call_openrouter_deepseek post email_text = Raise e.
Proof. intros Hp. unfold call_openrouter_deepseek. rewrite Hp. reflexivity. Qed.

(** * Sub request validation *)

Lemma truthy_some s : truthy (Some s) = true <-> s <> "".
Proof.
  simpl. rewrite negb_true_iff. split.
  - intros H ->. discriminate.
  - intros H. destruct (String.eqb_spec s ""); [contradiction | reflexivity].
Qed.

Lemma parse_sub_some lines s :
  parse_sub lines = Some s
  <-> lines !! 1%nat = Some s
      /\ s <> ""
      /\ exists allowed,
           SUB_REQUEST_TYPES !! parse_primary lines = Some allowed
           /\ s ∈ allowed.
Proof.
  unfold parse_sub.
  destruct lines as [|l1 [|l2 rest]].
  - simpl. split; [discriminate | intros (H & _); discriminate].
  - simpl. split; [discriminate | intros (H & _); discriminate].
  - change ((l1 :: l2 :: rest) !! 1%nat) with (Some l2).
    change (1 <? length (l1 :: l2 :: rest))%nat with true.
    cbn [from_option id andb].
    destruct (String.eqb_spec l2 "") as [->|Hne].
    + simpl. split; [discriminate|]. intros (H & Hs & _).
      injection H as <-. contradiction.
    + cbn [negb truthy]. destruct (String.eqb_spec l2 ""); [contradiction|].
      cbn [negb andb].
      destruct (SUB_REQUEST_TYPES !! parse_primary (l1 :: l2 :: rest))
        as [allowed|] eqn:E.
      * rewrite bool_decide_eq_true_2 by eauto. cbn [from_option id].
        destruct (decide (l2 ∈ allowed)) as [Hin|Hin].
        -- rewrite (bool_decide_eq_true_2 _ Hin). simpl. split.
           ++ intros H. injection H as <-. eauto.
           ++ intros (H & _). exact H.
        -- rewrite (bool_decide_eq_false_2 _ Hin). simpl. split; [discriminate|].
           intros (H & _ & allowed' & Ha & Hin'). injection H as <-.
           injection Ha as <-. contradiction.
      * rewrite bool_decide_eq_false_2 by (intros [x Hx]; discriminate).
        split; [discriminate|].
        intros (_ & _ & allowed' & Ha & _). discriminate.
Qed.

(** C5. The second line is kept as the sub request exactly when it is
    there and not empty, the primary request is a key of
    SUB_REQUEST_TYPES and the line is in that key's list; otherwise the
    sub request is None, and nothing is raised.  "Ongoing Fee" under
    "Fee Payment" is kept, "Cashless Roll" under "Fee Payment" is not,
    and nothing is kept under "Adjustment". *)
Theorem C5_sub_request_validated_against_mapping :
  (forall lines s,
     parse_sub lines = Some s
     <-> lines !! 1%nat = Some s
         /\ s <> ""
         /\ exists allowed,
              SUB_REQUEST_TYPES !! parse_primary lines = Some allowed
              /\ s ∈ allowed)
  /\ (forall post email_text response response_text,
        post (prompt email_text) = Responded response ->
        status_code response = 200%Z ->
        message_content response = Ok response_text ->
        exists c,
          call_openrouter_deepseek post email_text = Ok c
          /\ primary_request c = parse_primary (response_lines response_text)
          /\ sub_request c = parse_sub (response_lines response_text))
  /\ parse_sub ["Fee Payment"; "Ongoing Fee"] = Some "Ongoing Fee"
  /\ parse_sub ["Fee Payment"; "Cashless Roll"] = None
  /\ (forall s rest, parse_sub ("Adjustment" :: s :: rest) = None)
  /\ (exists c,
        call_openrouter_deepseek
          (answering (three_lines "Fee Payment" "Ongoing Fee" "Confidence: 0.9"))
          "please process the fee" = Ok c
        /\ sub_request c = Some "Ongoing Fee")
  /\ (exists c,
        call_openrouter_deepseek
          (answering (three_lines "Fee Payment" "Cashless Roll" "Confidence: 0.9"))
          "please process the fee" = Ok c
        /\ sub_request c = None)
  /\ (exists c,
        call_openrouter_deepseek
          (answering (three_lines "Adjustment" "Ongoing Fee" "Confidence: 0.9"))
          "please adjust" = Ok c
        /\ sub_request c = None).
Proof.
  split; [apply parse_sub_some|].
  split.
  { intros post email_text response response_text Hp Hs Hm.
    rewrite (call_openrouter_deepseek_200 _ _ _ Hp Hs), Hm. simpl.
    eexists. split; [reflexivity|]. split; reflexivity. }
  split; [vm_compute; reflexivity|].
  split; [vm_compute; reflexivity|].
  split.
  { intros s rest. destruct (parse_sub ("Adjustment" :: s :: rest)) as [x|] eqn:E;
      [|reflexivity].
    apply parse_sub_some in E. destruct E as (_ & _ & allowed & Ha & _).
    vm_compute in Ha. discriminate. }
  split; [eexists; split; vm_compute; reflexivity|].
  split; eexists; split; vm_compute; reflexivity.
Qed.

(** * Confidence *)

Lemma search_confidence line :
  search confidence_pattern line
  = (fun numeral => Some (to_str numeral))
      <$> first_at confidence_here (of_str line).
Proof.
  unfold search. rewrite re_search_confidence.
  destruct (first_at confidence_here (of_str line)); reflexivity.
Qed.

Lemma parse_confidence_spec lines :
  parse_confidence lines
  = match lines !! 2%nat with
    | Some line => confidence_of line
    | None => None
    end.
Proof.
  unfold parse_confidence, confidence_of.
  destruct lines as [|l1 [|l2 [|l3 rest]]]; try reflexivity.
  change (2 <? length (l1 :: l2 :: l3 :: rest))%nat with true.
  change ((l1 :: l2 :: l3 :: rest) !! 2%nat) with (Some l3).
  cbn [from_option id]. rewrite search_confidence.
  destruct (first_at confidence_here (of_str l3)); reflexivity.
Qed.

Lemma take_while_all p (l : list ascii) :
  forallb p l = true -> take_while p l = l.
Proof.
  induction l as [|c l IH]; [reflexivity|]. simpl.
  intros H. apply andb_true_iff in H. destruct H as [-> H].
  rewrite IH by exact H. reflexivity.
Qed.

Lemma drop_while_all p (l : list ascii) :
  forallb p l = true -> drop_while p l = [].
Proof.
  induction l as [|c l IH]; [reflexivity|]. simpl.
  intros H. apply andb_true_iff in H. destruct H as [-> H]. apply IH, H.
Qed.

Lemma digit_is_digit_or_dot c : is_digit c = true -> digit_or_dot c = true.
Proof. unfold digit_or_dot. intros ->. reflexivity. Qed.

Lemma digit_not_space c : is_digit c = true -> is_space c = false.
Proof.
  intros H. destruct (is_space c) eqn:E; [|reflexivity].
  apply space_not_digit_or_dot in E. apply digit_is_digit_or_dot in H. congruence.
Qed.

Lemma of_to_str l : of_str (to_str l) = l.
Proof. apply list_ascii_of_string_of_list_ascii. Qed.

(** A whole numeral after the label is read as its value, however large. *)
Lemma digits_value_nonneg l : (0 <= digits_value l)%Z.
Proof.
  unfold digits_value.
  assert (H : forall acc, (0 <= acc)%Z ->
            (0 <= fold_left (fun a c => 10 * a + digit_value c) l acc)%Z).
  { induction l as [|c l IH]; intros acc Hacc; simpl; [exact Hacc|].
    apply IH. unfold digit_value. lia. }
  apply H. lia.
Qed.

(** ** Rounding to binary64 *)

Lemma Qred_integer n : Qred (n # 1) = n # 1.
Proof.
  unfold Qred.
  pose proof (Z.ggcd_gcd n 1) as Hg.
  pose proof (Z.ggcd_correct_divisors n 1) as Hd.
  destruct (Z.ggcd n 1) as [g [aa bb]]. simpl in Hg, Hd.
  rewrite Z.gcd_1_r in Hg. subst g. destruct Hd as [Ha Hb].
  rewrite Z.mul_1_l in Ha, Hb. subst aa bb. reflexivity.
Qed.

Lemma dyadic_scaled n k :
  (0 <= k)%Z -> dyadic (n * 2 ^ k) (- k) = n # 1.
Proof.
  intros Hk. unfold dyadic. rewrite <- (Qred_integer n).
  apply Qred_complete.
  destruct (0 <=? - k)%Z eqn:E.
  - apply Z.leb_le in E. assert (k = 0%Z) as -> by lia.
    simpl. unfold Qeq. simpl. lia.
  - rewrite Z.opp_involutive. unfold Qeq. cbn [Qnum Qden].
    rewrite Z2Pos.id by (apply Z.pow_pos_nonneg; lia). lia.
Qed.

Lemma round_half_even_unit x : round_half_even x 1 = x.
Proof.
  unfold round_half_even. rewrite Z.mod_1_r, Z.div_1_r. reflexivity.
Qed.

Lemma round_half_even_nonneg num den :
  (0 <= num)%Z -> (0 < den)%Z -> (0 <= round_half_even num den)%Z.
Proof.
  intros Hn Hd. unfold round_half_even.
  pose proof (Z.div_pos num den Hn Hd) as Hm.
  repeat match goal with |- context [if ?b then _ else _] => destruct b end; lia.
Qed.

(** Integers below [2 ^ 53] are binary64 numbers: they are not rounded. *)
Lemma round_binary64_exact_integer n :
  (0 <= n < 2 ^ 53)%Z -> round_binary64 n 1 = Finite (n # 1).
Proof.
  intros [H0 H53]. unfold round_binary64.
  destruct (Z.leb_spec n 0) as [Hle|Hpos].
  { assert (n = 0%Z) as -> by lia. reflexivity. }
  assert (HL : ilog2_ratio n 1 = Z.log2 n).
  { unfold ilog2_ratio. change (Z.log2 1) with 0%Z. rewrite Z.sub_0_r.
    pose proof (Z.log2_nonneg n) as Hnn.
    destruct (Z.leb_spec 0 (Z.log2 n)) as [_|]; [|lia].
    pose proof (Z.log2_spec n Hpos) as [Hlo _].
    destruct (Z.leb_spec (1 * 2 ^ Z.log2 n) n) as [_|]; [reflexivity | lia]. }
  rewrite HL.
  assert (Hl52 : (0 <= Z.log2 n <= 52)%Z).
  { split; [apply Z.log2_nonneg|].
    assert (Z.log2 n < 53)%Z by (apply Z.log2_lt_pow2; lia). lia. }
  set (k := (52 - Z.log2 n)%Z).
  assert (Hq : Z.max (Z.log2 n - 52) (-1074) = (- k)%Z) by (unfold k; lia).
  rewrite Hq.
  assert (Hm : (if (0 <=? - k)%Z
                then round_half_even n (1 * 2 ^ (- k))
                else round_half_even (n * 2 ^ (- - k)) 1)
               = (n * 2 ^ k)%Z).
  { destruct (Z.leb_spec 0 (- k)) as [Hk|Hk].
    - assert (k = 0%Z) as -> by (unfold k in *; lia).
      simpl. rewrite round_half_even_unit. lia.
    - rewrite Z.opp_involutive. apply round_half_even_unit. }
  rewrite Hm.
  assert (Hov : (0 <=? - k)%Z && (2 ^ 1024 <=? n * 2 ^ k * 2 ^ (- k))%Z = false).
  { destruct (Z.leb_spec 0 (- k)) as [Hk|Hk]; [|reflexivity].
    assert (k = 0%Z) as -> by (unfold k in *; lia).
    simpl. apply Z.leb_gt.
    assert (2 ^ 53 < 2 ^ 1024)%Z by (apply Z.pow_lt_mono_r; lia). lia. }
  rewrite Hov. f_equal. apply dyadic_scaled. unfold k. lia.
Qed.

Lemma dyadic_nonneg m q : (0 <= m)%Z -> (0 <= dyadic m q)%Q.
Proof.
  intros Hm. unfold dyadic. rewrite Qred_correct.
  destruct (0 <=? q)%Z eqn:E; unfold Qle; cbn [Qnum Qden].
  - apply Z.leb_le in E.
    assert (0 <= 2 ^ q)%Z by (apply Z.pow_nonneg; lia). nia.
  - lia.
Qed.

Lemma round_binary64_nonneg n d : pyfloat_le (Finite 0) (round_binary64 n d).
Proof.
  unfold round_binary64.
  destruct (Z.leb_spec n 0) as [Hle|Hpos]; [apply Qle_refl|].
  set (q := Z.max (ilog2_ratio n d - 52) (-1074)).
  destruct (_ && _); [exact I|].
  apply dyadic_nonneg.
  destruct (Z.leb_spec 0 q) as [Hq|Hq]; apply round_half_even_nonneg; lia.
Qed.

(** Some numerals and their floats: 0.87 is not a binary64 number and is
    rounded to the nearest one, an integer above [2 ^ 53] loses its last
    bit, and a numeral of 401 digits is inf. *)
Example py_float_examples :
  py_float "0.87" = Ok (Finite (7836263351624663 # 9007199254740992))
  /\ py_float "7.5" = Ok (Finite (15 # 2))
  /\ py_float "1." = Ok (Finite 1)
  /\ py_float ".5" = Ok (Finite (1 # 2))
  /\ py_float "." = Raise (not_a_float ".")
  /\ py_float "1.2.3" = Raise (not_a_float "1.2.3")
  /\ py_float "9007199254740993" = Ok (Finite 9007199254740992)
  /\ py_float "9007199254740995" = Ok (Finite 9007199254740996)
  /\ py_float (to_str ("1"%char :: repeat "0"%char 400)) = Ok Infinity.
Proof. repeat split; vm_compute; reflexivity. Qed.

Lemma confidence_of_digits (ds after : list ascii) :
  ds <> [] ->
  forallb is_digit ds = true ->
  match after with
  | c :: _ => digit_or_dot c = false
  | [] => True
  end ->
  confidence_of (to_str (of_str "Confidence: " ++ ds ++ after))
  = Some (round_binary64 (digits_value ds) 1).
Proof.
  intros Hne Hd Hafter. unfold confidence_of. rewrite of_to_str.
  assert (Hdd : forallb digit_or_dot ds = true).
  { clear Hne. induction ds as [|c l IH]; [reflexivity|]. simpl in *.
    apply andb_true_iff in Hd. destruct Hd as [Hc Hl].
    rewrite (digit_is_digit_or_dot c Hc), IH by exact Hl. reflexivity. }
  assert (Hrun : take_while digit_or_dot (ds ++ after) = ds).
  { clear Hne Hd. induction ds as [|c l IH]; simpl.
    - destruct after as [|c after]; [reflexivity|]. simpl. rewrite Hafter.
      reflexivity.
    - simpl in Hdd. apply andb_true_iff in Hdd. destruct Hdd as [Hc Hl].
      rewrite Hc, IH by exact Hl. reflexivity. }
  assert (Hhere : confidence_here (of_str "Confidence: " ++ ds ++ after)
                  = Some ds).
  { unfold confidence_here.
    change (strip_prefix (of_str "Confidence:")
              (of_str "Confidence: " ++ ds ++ after))
      with (Some (" "%char :: ds ++ after)).
    cbv beta iota zeta.
    change (drop_while is_space (" "%char :: ds ++ after))
      with (drop_while is_space (ds ++ after)).
    destruct ds as [|d ds]; [contradiction|].
    assert (Hs : is_space d = false).
    { apply digit_not_space. simpl in Hd. apply andb_true_iff in Hd. tauto. }
    assert (Hdrop : drop_while is_space ((d :: ds) ++ after) = (d :: ds) ++ after)
      by (simpl; rewrite Hs; reflexivity).
    rewrite Hdrop, Hrun. reflexivity. }
  assert (Hfirst : first_at confidence_here
                     (of_str "Confidence: " ++ ds ++ after) = Some ds).
  { change (of_str "Confidence: " ++ ds ++ after)
      with ("C"%char :: (of_str "onfidence: " ++ ds ++ after)) in *.
    cbn [first_at]. rewrite Hhere. reflexivity. }
  rewrite Hfirst. unfold py_float. rewrite of_to_str.
  rewrite take_while_all, drop_while_all by exact Hd.
  destruct ds; [contradiction | reflexivity].
Qed.

(** C6. The confidence is read from the third non-blank line: the first
    place in it where the label [Confidence:], optional whitespace and a
    run of digits and dots occur, the run parsed as a float; None when the
    run is not a numeral or there is no third line.  The value is not
    clamped: any whole numeral is read as the float of its value, which
    is the value itself below [2 ^ 53], and a numeral of 401 digits is
    read as inf.  "Confidence: 0.87" gives the float 0.87 (the binary64
    number nearest to 87/100) and "Confidence: high" gives None. *)
Theorem C6_confidence_from_third_line :
  (forall lines,
     parse_confidence lines
     = match lines !! 2%nat with
       | Some line => confidence_of line
       | None => None
       end)
  /\ (forall post email_text response response_text,
        post (prompt email_text) = Responded response ->
        status_code response = 200%Z ->
        message_content response = Ok response_text ->
        exists c,
          call_openrouter_deepseek post email_text = Ok c
          /\ confidence c = parse_confidence (response_lines response_text))
  /\ (forall lines, (length lines <= 2)%nat -> parse_confidence lines = None)
  /\ (forall l1 l2 rest,
        parse_confidence (l1 :: l2 :: "Confidence: 0.87" :: rest)
        = Some (round_binary64 87 100))
  /\ round_binary64 87 100 = Finite (7836263351624663 # 9007199254740992)
  /\ ((87 # 100) - (1 # 2 ^ 54) <= 7836263351624663 # 9007199254740992
      <= (87 # 100) + (1 # 2 ^ 54))%Q
  /\ (forall l1 l2 rest,
        parse_confidence (l1 :: l2 :: "Confidence: high" :: rest) = None)
  /\ (forall l1 l2 rest,
        parse_confidence (l1 :: l2 :: "Confidence: 1.2.3" :: rest) = None)
  /\ (forall l1 l2 rest,
        parse_confidence (l1 :: l2 :: "Confidence: 7.5" :: rest)
        = Some (Finite (15 # 2)))
  /\ (forall l1 l2 rest ds,
        ds <> [] ->
        forallb is_digit ds = true ->
        parse_confidence
          (l1 :: l2 :: to_str (of_str "Confidence: " ++ ds) :: rest)
        = Some (round_binary64 (digits_value ds) 1)
        /\ ((digits_value ds < 2 ^ 53)%Z ->
            parse_confidence
              (l1 :: l2 :: to_str (of_str "Confidence: " ++ ds) :: rest)
            = Some (Finite (digits_value ds # 1))))
  /\ (forall l1 l2 rest,
        parse_confidence (l1 :: l2 :: "Confidence: 9007199254740993" :: rest)
        = Some (Finite 9007199254740992))
  /\ (forall l1 l2 rest,
        parse_confidence
          (l1 :: l2
           :: to_str (of_str "Confidence: 1" ++ repeat "0"%char 400) :: rest)
        = Some Infinity)
  /\ (exists c,
        call_openrouter_deepseek
          (answering (three_lines "Fee Payment" "Ongoing Fee" "Confidence: 0.87"))
          "please process the fee" = Ok c
        /\ confidence c = Some (Finite (7836263351624663 # 9007199254740992)))
  /\ (exists c,
        call_openrouter_deepseek
          (answering (three_lines "Fee Payment" "Ongoing Fee" "Confidence: high"))
          "please process the fee" = Ok c
        /\ confidence c = None)
  /\ (exists c,
        call_openrouter_deepseek
          (answering (three_lines "Fee Payment" "" "Confidence: 0.87"))
          "please process the fee" = Ok c
        /\ confidence c = None).
Proof.
  split; [apply parse_confidence_spec|].
  split.
  { intros post email_text response response_text Hp Hs Hm.
    rewrite (call_openrouter_deepseek_200 _ _ _ Hp Hs), Hm. simpl.
    eexists. split; reflexivity. }
  split.
  { intros lines Hlen. rewrite parse_confidence_spec.
    destruct lines as [|l1 [|l2 [|l3 rest]]]; try reflexivity.
    simpl in Hlen. lia. }
  split; [intros; rewrite parse_confidence_spec; vm_compute; reflexivity|].
  split; [vm_compute; reflexivity|].
  split; [split; vm_compute; discriminate|].
  split; [intros; rewrite parse_confidence_spec; vm_compute; reflexivity|].
  split; [intros; rewrite parse_confidence_spec; vm_compute; reflexivity|].
  split; [intros; rewrite parse_confidence_spec; vm_compute; reflexivity|].
  split.
  { intros l1 l2 rest ds Hne Hd.
    assert (H : parse_confidence
                  (l1 :: l2 :: to_str (of_str "Confidence: " ++ ds) :: rest)
                = Some (round_binary64 (digits_value ds) 1)).
    { rewrite parse_confidence_spec.
      pose proof (confidence_of_digits ds [] Hne Hd I) as Hc.
      rewrite app_nil_r in Hc. exact Hc. }
    split; [exact H|]. intros Hlt. rewrite H.
    rewrite round_binary64_exact_integer; [reflexivity|].
    split; [apply digits_value_nonneg | exact Hlt]. }
  split; [intros; rewrite parse_confidence_spec; vm_compute; reflexivity|].
  split; [intros; rewrite parse_confidence_spec; vm_compute; reflexivity|].
  split; [eexists; split; vm_compute; reflexivity|].
  split; eexists; split; vm_compute; reflexivity.
Qed.

(** * Failures of the classifier call *)

(** C1, as stated, fails: when [requests.post] raises (no connection, or
    a timeout) the call fails, yet no result with primary request "Error"
    is built; the exception leaves [call_openrouter_deepseek] and
    [process_email]. *)
Lemma C1_counterexample_network_error_propagates :
  call_fails (unreachable (prompt "hello"))
  /\ call_openrouter_deepseek unreachable "hello"
     = Raise (ConnectionError "Max retries exceeded")
  /\ (process_email (fun s => s) unreachable "hello" None ∅).2
     = Raise (ConnectionError "Max retries exceeded")
  /\ call_fails (timing_out (prompt "hello"))
  /\ call_openrouter_deepseek timing_out "hello"
     = Raise (Timeout "Read timed out")
  /\ (process_email (fun s => s) timing_out "hello" None ∅).2
     = Raise (Timeout "Read timed out").
Proof.
  split; [exact I|]. split; [reflexivity|]. split; [reflexivity|].
  split; [exact I|]. split; reflexivity.
Qed.

(** C1, amended. When the call returns a response whose status is not
    200, the classification is built on the spot: primary request
    "Error", no sub request, confidence 0.0, and details made of the
    status and the body of the response; nothing is raised, and
    [process_email] returns with that classification. *)
Theorem C1_non_200_status_gives_error_result
    (sha256_hexdigest : string -> string) (post : string -> post_outcome)
    (email_text : string) (attachments : option (list string)) (st : HashSet)
    (response : Response) :
  post (prompt email_text) = Responded response ->
  status_code response <> 200%Z ->
  let degraded :=
    {| primary_request := "Error";
       sub_request := None;
       confidence := Some (Finite 0);
       details := "Error calling DeepSeek API: "
                  +:+ str_of_int (status_code response)
                  +:+ " " +:+ text response |} in
  call_openrouter_deepseek post email_text = Ok degraded
  /\ exists r,
       (process_email sha256_hexdigest post email_text attachments st).2 = Ok r
       /\ classification r = degraded.
Proof.
  intros Hp Hs degraded.
  pose proof (call_openrouter_deepseek_not_200 _ _ _ Hp Hs) as Hc.
  split; [exact Hc|].
  rewrite (process_email_ok _ _ _ attachments st _ Hc).
  eexists. split; reflexivity.
Qed.

Lemma C1_witness :
  call_openrouter_deepseek (answering_status 503 "Service Unavailable") "hello"
  = Ok {| primary_request := "Error";
          sub_request := None;
          confidence := Some (Finite 0);
          details := "Error calling DeepSeek API: 503 Service Unavailable" |}.
Proof.
  refine (proj1 (C1_non_200_status_gives_error_result
                   (fun s => s) (answering_status 503 "Service Unavailable")
                   "hello" None ∅
                   {| status_code := 503;
                      text := "Service Unavailable";
                      json := Raise (JSONDecodeError "Expecting value") |}
                   _ _)).
  - reflexivity.
  - discriminate.
Defined.

Lemma parse_primary_first lines :
  parse_primary lines
  = match lines with
    | [] => "Unknown"
    | line :: _ => line
    end.
Proof. destruct lines; reflexivity. Qed.

(** C2, as stated, fails: the backend answers with a first line that is
    no request type, and that line is the primary request. *)
Lemma C2_counterexample_unlisted_primary_request :
  exists r,
    (process_email (fun s => s) (answering "Please advise") "hello" None ∅).2
    = Ok r
    /\ primary_request (classification r) = "Please advise"
    /\ ("Please advise" ∉ REQUEST_TYPES)
    /\ "Please advise" <> "Unknown"
    /\ "Please advise" <> "Error".
Proof.
  eexists. split; [vm_compute; reflexivity|].
  split; [reflexivity|].
  split; [|split; discriminate].
  apply (bool_decide_eq_false_1 ("Please advise" ∈ REQUEST_TYPES)).
  vm_compute. reflexivity.
Qed.

(** C2, amended. The primary request of a classification is "Error" when
    the status of the response is not 200; otherwise it is the first
    non-blank line of the message content, stripped, whatever it says, and
    "Unknown" when the content has no such line. *)
Theorem C2_primary_request_is_first_line_or_sentinel
    (post : string -> post_outcome) (email_text : string)
    (c : ClassificationResult) :
  call_openrouter_deepseek post email_text = Ok c ->
  exists response,
    post (prompt email_text) = Responded response
    /\ ((status_code response <> 200%Z /\ primary_request c = "Error")
        \/ (status_code response = 200%Z
            /\ exists response_text,
                 message_content response = Ok response_text
                 /\ primary_request c
                    = match response_lines response_text with
                      | [] => "Unknown"
                      | line :: _ => line
                      end)).
Proof.
  intros Hc. destruct (post (prompt email_text)) as [e|response] eqn:Hp.
  - rewrite (call_openrouter_deepseek_raised _ _ _ Hp) in Hc. discriminate.
  - exists response. split; [reflexivity|].
    destruct (Z.eq_dec (status_code response) 200%Z) as [Hs|Hs].
    + right. split; [exact Hs|].
      rewrite (call_openrouter_deepseek_200 _ _ _ Hp Hs) in Hc.
      destruct (message_content response) as [response_text|]; [|discriminate].
      simpl in Hc. injection Hc as <-. exists response_text.
      split; [reflexivity|]. apply parse_primary_first.
    + left. split; [exact Hs|].
      rewrite (call_openrouter_deepseek_not_200 _ _ _ Hp Hs) in Hc.
      injection Hc as <-. reflexivity.
Qed.

Lemma C2_witness :
  exists response,
    answering (three_lines "Fee Payment" "Ongoing Fee" "Confidence: 0.9")
      (prompt "hello") = Responded response
    /\ status_code response = 200%Z.
Proof.
  destruct (C2_primary_request_is_first_line_or_sentinel
              (answering (three_lines "Fee Payment" "Ongoing Fee" "Confidence: 0.9"))
              "hello"
              {| primary_request := "Fee Payment";
                 sub_request := Some "Ongoing Fee";
                 confidence := Some (round_binary64 9 10);
                 details := "DeepSeek R1 analysis confirms the classification." |})
    as (response & Hp & [[Hs _] | [Hs _]]).
  - vm_compute. reflexivity.
  - exfalso. injection Hp as <-. apply Hs. reflexivity.
  - exists response. split; [exact Hp | exact Hs].
Defined.

(** * The deal name *)

(** C9, as stated, fails in three ways.  An underscore is captured,
    though it is no letter, digit, whitespace or hyphen.  When the first
    [Deal:] is followed by a character outside the class, a later label
    is used instead of the first.  And a label with nothing capturable
    after it anywhere gives None, not an empty name. *)
Lemma C9_counterexample_underscore_and_later_label :
  (fields_of "Deal: Project_Falcon, due") !! "deal_name"
  = Some (Some "Project_Falcon")
  /\ extract_fields "Deal: Project_Falcon, due"
     = Ok (fields_of "Deal: Project_Falcon, due")
  /\ letter_digit_space_hyphen "_" = false
  /\ deal_name_as_stated "Deal: Project_Falcon, due" = Some "Project"
  /\ (fields_of "Deal:! see Deal: Falcon") !! "deal_name" = Some (Some "Falcon")
  /\ deal_name_as_stated "Deal:! see Deal: Falcon" = Some ""
  /\ (fields_of "Deal:!") !! "deal_name" = Some None
  /\ deal_name_as_stated "Deal:!" = Some "".
Proof.
  split; [vm_compute; reflexivity|].
  split; [apply extract_fields_ok|].
  repeat split; vm_compute; reflexivity.
Qed.

(** C9, amended. The deal name is taken at the first place where the
    label [Deal:] is followed by at least one word character (letter,
    digit or underscore), whitespace or hyphen: the longest run of such
    characters after the label, stripped.  Where there is no such place,
    and so where the label does not occur, it is None. *)
Theorem C9_deal_name_is_stripped_run_after_label (email_text : string) :
  (exists fields,
     extract_fields email_text = Ok fields
     /\ fields !! "deal_name" = Some (deal_name_of email_text))
  /\ deal_name_of email_text
     = to_str <$> first_at deal_here (of_str email_text)
  /\ (forall s,
        deal_here s
        = match strip_prefix (of_str "Deal:") s with
          | Some rest =>
              if nonempty (take_while deal_char rest)
              then Some (strip_chars (take_while deal_char rest))
              else None
          | None => None
          end)
  /\ (forall c,
        deal_char c = true
        <-> is_alnum c = true \/ c = "_"%char \/ is_space c = true
            \/ c = "-"%char)
  /\ (contains (of_str "Deal:") (of_str email_text) = false ->
      deal_name_of email_text = None).
Proof.
  split.
  { exists (fields_of email_text). split; [apply extract_fields_ok|].
    unfold fields_of, Fields. rewrite !lookup_insert_ne by discriminate.
    apply lookup_insert_eq. }
  split; [reflexivity|].
  split; [reflexivity|].
  split; [|apply deal_name_absent].
  intros c. unfold deal_char, is_word.
  rewrite !orb_true_iff. rewrite N.eqb_eq.
  assert (Hu : code c = 95%N <-> c = "_"%char).
  { split; [|intros ->; reflexivity].
    intros H. rewrite <- (ascii_N_embedding c). unfold code in H. rewrite H.
    reflexivity. }
  assert (Hh : Ascii.eqb c "-" = true <-> c = "-"%char) by apply Ascii.eqb_eq.
  rewrite Hu, Hh. tauto.
Qed.

(** * File types *)

Lemma lower_char_dot c : Ascii.eqb (lower_char c) "." = Ascii.eqb c ".".
Proof. destruct c as [[] [] [] [] [] [] [] []]; vm_compute; reflexivity. Qed.

Lemma lower_char_slash c : Ascii.eqb (lower_char c) "/" = Ascii.eqb c "/".
Proof. destruct c as [[] [] [] [] [] [] [] []]; vm_compute; reflexivity. Qed.

Lemma rfind_from_lower sep l i last :
  (forall c, Ascii.eqb (lower_char c) sep = Ascii.eqb c sep) ->
  rfind_from sep (map lower_char l) i last = rfind_from sep l i last.
Proof.
  intros Hsep. revert i last. induction l as [|c l IH]; intros i last;
    [reflexivity|].
  simpl. rewrite Hsep. apply IH.
Qed.

Lemma existsb_not_dot_lower l :
  existsb (fun c => negb (Ascii.eqb c ".")) (map lower_char l)
  = existsb (fun c => negb (Ascii.eqb c ".")) l.
Proof.
  induction l as [|c l IH]; [reflexivity|].
  simpl. rewrite lower_char_dot, IH. reflexivity.
Qed.

Lemma lower_to_str l : lower (to_str l) = to_str (map lower_char l).
Proof.
  unfold lower, to_str. rewrite list_ascii_of_string_of_list_ascii. reflexivity.
Qed.

Lemma of_str_lower p : of_str (lower p) = map lower_char (of_str p).
Proof. unfold lower. apply of_to_str. Qed.

(** The extension of the lowered path is the lowered extension. *)
Lemma splitext_lower p :
  (splitext (lower p)).2 = lower (splitext p).2.
Proof.
  unfold splitext. rewrite of_str_lower.
  unfold rfind. rewrite !rfind_from_lower
    by (intros c; first [apply lower_char_slash | apply lower_char_dot]).
  destruct (_ <? _)%Z; [|reflexivity].
  rewrite skipn_map, firstn_map, existsb_not_dot_lower.
  destruct (existsb _ _); [|reflexivity].
  cbn [snd]. rewrite lower_to_str, skipn_map. reflexivity.
Qed.

Lemma lower_extension_case_insensitive p p' :
  lower p = lower p' -> lower (splitext p).2 = lower (splitext p').2.
Proof. intros H. rewrite <- !splitext_lower, H. reflexivity. Qed.

(** C10. The extension is lowered before it is compared: a path is
    handled as a [.eml] file, or as a [.msg] file, according to its
    lowered extension alone, so that paths differing only in case are
    treated alike ([.EML] and [.Msg] are accepted); with any other
    extension the ValueError for an unsupported file type is raised, the
    hash set is untouched and no collaborator has a say. *)
Theorem C10_extension_lowered_before_dispatch
    (sha256_hexdigest : string -> string)
    (read_eml read_msg : string -> result string)
    (post : string -> post_outcome) (file_path : string) (st : HashSet) :
  let ext := lower (splitext file_path).2 in
  let run := process_email_file sha256_hexdigest read_eml read_msg post file_path st in
  (ext = ".eml" ->
   run = match read_eml file_path with
         | Ok email_text =>
             process_email sha256_hexdigest post email_text None st
         | Raise e => (st, Raise e)
         end)
  /\ (ext = ".msg" ->
      run = match read_msg file_path with
            | Ok email_text =>
                process_email sha256_hexdigest post email_text None st
            | Raise e => (st, Raise e)
            end)
  /\ (ext <> ".eml" -> ext <> ".msg" ->
      forall sha' read_eml' read_msg' post',
        process_email_file sha' read_eml' read_msg' post' file_path st
        = (st,
           Raise (ValueError
                    "Unsupported file type. Only .eml and .msg files are supported.")))
  /\ (forall file_path',
        lower file_path' = lower file_path ->
        lower (splitext file_path').2 = ext)
  /\ lower (splitext "inbox/notice.EML").2 = ".eml"
  /\ lower (splitext "inbox/notice.Msg").2 = ".msg"
  /\ lower (splitext "inbox/notice.eml.TXT").2 = ".txt"
  /\ lower (splitext "inbox.eml/notice").2 = "".
Proof.
  intros ext run. subst ext run. unfold process_email_file.
  split.
  { intros ->. reflexivity. }
  split.
  { intros ->. reflexivity. }
  split.
  { intros H1 H2 sha' read_eml' read_msg' post'.
    destruct (String.eqb_spec (lower (splitext file_path).2) ".eml");
      [contradiction|].
    destruct (String.eqb_spec (lower (splitext file_path).2) ".msg");
      [contradiction|].
    reflexivity. }
  split; [intros file_path' H; apply lower_extension_case_insensitive, H|].
  repeat split; vm_compute; reflexivity.
Qed.

(** * Further properties of the pipeline *)

#[local] Set Warnings "-clear-no-such-hyp".

(** ** The hash set *)



(** X2. The hash is recorded before the classifier is called: when the
    call raises on a new text, the text is nevertheless remembered, and a
    second run on the same text, with the classifier answering, reports a
    duplicate although no result was ever produced for it. *)
Theorem X2_failed_run_still_records_hash
    (sha256_hexdigest : string -> string) (post1 post2 : string -> post_outcome)
    (email_text : string) (atts1 atts2 : option (list string)) (st : HashSet)
    (e : exn) (c : ClassificationResult) :
  sha256_hexdigest email_text ∉ st ->
  call_openrouter_deepseek post1 email_text = Raise e ->
  call_openrouter_deepseek post2 email_text = Ok c ->
  let first := process_email sha256_hexdigest post1 email_text atts1 st in
  let second := process_email sha256_hexdigest post2 email_text atts2 first.1 in
  first.2 = Raise e
  /\ exists r,
       second.2 = Ok r
       /\ duplicate r = true
       /\ duplicate_reason r = reason_for (sha256_hexdigest email_text)
       /\ classification r = c.
Proof.
  intros Hnew H1 H2. cbv zeta.
  rewrite (process_email_raise _ _ _ atts1 st _ H1).
  rewrite (is_duplicate_new _ _ _ Hnew). cbn [fst snd].
  split; [reflexivity|].
  rewrite (process_email_ok _ _ _ atts2 _ _ H2).
  assert (Hin : sha256_hexdigest email_text
                ∈ ({[sha256_hexdigest email_text]} ∪ st : HashSet))
    by set_solver.
  rewrite (is_duplicate_seen _ _ _ Hin). cbn [fst snd].
  eexists. repeat split.
Qed.

Lemma X2_witness :
  exists r,
    (process_email (fun s => s) (answering "Fee Payment") "hello" None
       (process_email (fun s => s) unreachable "hello" None ∅).1).2 = Ok r
    /\ duplicate r = true.
Proof.
  destruct (X2_failed_run_still_records_hash
              (fun s => s) unreachable (answering "Fee Payment") "hello"
              None None ∅ (ConnectionError "Max retries exceeded")
              {| primary_request := "Fee Payment";
                 sub_request := None;
                 confidence := None;
                 details := "DeepSeek R1 analysis confirms the classification." |})
    as (_ & r & Hr & Hd & _).
  - apply not_elem_of_empty.
  - reflexivity.
  - vm_compute. reflexivity.
  - exists r. split; [exact Hr | exact Hd].
Defined.

Lemma check_all_store sha256_hexdigest texts (st : HashSet) :
  (check_all sha256_hexdigest texts st).1
  = list_to_set (sha256_hexdigest <$> texts) ∪ st.
Proof.
  revert st. induction texts as [|t texts IH]; intros st; simpl.
  - set_solver.
  - destruct (is_duplicate sha256_hexdigest t st) as [st1 [flag reason]] eqn:E.
    specialize (IH st1).
    destruct (check_all sha256_hexdigest texts st1) as [st2 flags].
    simpl in IH |- *. rewrite IH.
    pose proof (is_duplicate_grows sha256_hexdigest t st) as [Hsub Hin].
    rewrite E in Hsub, Hin. simpl in Hsub, Hin.
    assert (Hst1 : st1 = {[sha256_hexdigest t]} ∪ st).
    { destruct (decide (sha256_hexdigest t ∈ st)) as [H|H].
      - rewrite is_duplicate_seen in E by exact H. injection E as <- _ _.
        set_solver.
      - rewrite is_duplicate_new in E by exact H. injection E as <- _ _.
        reflexivity. }
    rewrite Hst1. set_solver.
Qed.

Lemma is_duplicate_flag sha256_hexdigest email_text (st : HashSet) :
  (is_duplicate sha256_hexdigest email_text st).2.1
  = bool_decide (sha256_hexdigest email_text ∈ st).
Proof.
  unfold is_duplicate, compute_email_hash.
  destruct (bool_decide _); reflexivity.
Qed.

(** X3. Over a session of checks, a text is reported as a duplicate
    exactly when its hash was in the set at the start or is the hash of a
    text checked earlier in the session; there is one flag per text. *)
Theorem X3_session_duplicate_iff_hash_seen_before
    (sha256_hexdigest : string -> string) (st : HashSet)
    (before : list string) (email_text : string) (after : list string) :
  let flags := (check_all sha256_hexdigest (before ++ email_text :: after) st).2 in
  length flags = length (before ++ email_text :: after)
  /\ (flags !! length before = Some true
      <-> sha256_hexdigest email_text ∈ st
          \/ exists earlier,
               earlier ∈ before
               /\ sha256_hexdigest earlier = sha256_hexdigest email_text)
  /\ (flags !! length before = Some false
      <-> ~ (sha256_hexdigest email_text ∈ st
             \/ exists earlier,
                  earlier ∈ before
                  /\ sha256_hexdigest earlier = sha256_hexdigest email_text)).
Proof.
  cbv zeta.
  assert (Hflag : (check_all sha256_hexdigest (before ++ email_text :: after) st).2
                  !! length before
                  = Some (bool_decide
                            (sha256_hexdigest email_text
                             ∈ list_to_set (sha256_hexdigest <$> before) ∪ st))).
  { revert st. induction before as [|t before IH]; intros st; simpl.
    - pose proof (is_duplicate_flag sha256_hexdigest email_text st) as Hf.
      destruct (is_duplicate sha256_hexdigest email_text st)
        as [st1 [flag reason]].
      destruct (check_all sha256_hexdigest after st1) as [st2 flags].
      simpl in Hf |- *. rewrite Hf. f_equal. apply bool_decide_ext. set_solver.
    - pose proof (check_all_store sha256_hexdigest [t] st) as Hst.
      simpl in Hst.
      destruct (is_duplicate sha256_hexdigest t st) as [st1 [flag reason]].
      specialize (IH st1).
      destruct (check_all sha256_hexdigest (before ++ email_text :: after) st1)
        as [st2 flags].
      simpl in Hst, IH |- *. rewrite IH, Hst. f_equal.
      apply bool_decide_ext. set_solver. }
  assert (Hlen : forall texts st0,
             length (check_all sha256_hexdigest texts st0).2 = length texts).
  { induction texts as [|t texts IH]; intros st0; simpl; [reflexivity|].
    destruct (is_duplicate sha256_hexdigest t st0) as [st1 [flag reason]].
    specialize (IH st1).
    destruct (check_all sha256_hexdigest texts st1) as [st2 flags].
    simpl in IH |- *. rewrite IH. reflexivity. }
  assert (Hmem : sha256_hexdigest email_text
                 ∈ list_to_set (C:=HashSet) (sha256_hexdigest <$> before) ∪ st
                 <-> sha256_hexdigest email_text ∈ st
                     \/ exists earlier,
                          earlier ∈ before
                          /\ sha256_hexdigest earlier
                             = sha256_hexdigest email_text).
  { rewrite elem_of_union, elem_of_list_to_set, list_elem_of_fmap.
    split.
    - intros [(y & Hy & Hin) | H]; [right; eauto | left; exact H].
    - intros [H | (y & Hin & Hy)]; [right; exact H | left; eauto]. }
  split; [apply Hlen|].
  rewrite Hflag, <- Hmem. split.
  - split.
    + intros H. injection H as H. apply bool_decide_eq_true in H. exact H.
    + intros H. rewrite bool_decide_eq_true_2 by exact H. reflexivity.
  - split.
    + intros H. injection H as H. apply bool_decide_eq_false in H. exact H.
    + intros H. rewrite bool_decide_eq_false_2 by exact H. reflexivity.
Qed.

(** ** Stripping and splitting *)

Lemma drop_while_idem p (l : list ascii) :
  drop_while p (drop_while p l) = drop_while p l.
Proof.
  induction l as [|c l IH]; [reflexivity|].
  simpl. destruct (p c) eqn:E; [exact IH|]. simpl. rewrite E. reflexivity.
Qed.

Lemma drop_while_app_last p (l : list ascii) c :
  p c = false -> drop_while p (l ++ [c]) = drop_while p l ++ [c].
Proof.
  intros Hc. induction l as [|x l IH]; simpl.
  - rewrite Hc. reflexivity.
  - destruct (p x); [exact IH | reflexivity].
Qed.

Lemma drop_while_head p (l : list ascii) :
  match drop_while p l with
  | c :: _ => p c = false
  | [] => True
  end.
Proof.
  induction l as [|c l IH]; [exact I|].
  simpl. destruct (p c) eqn:E; [exact IH | exact E].
Qed.

Lemma drop_while_id p c (l : list ascii) :
  p c = false -> drop_while p (c :: l) = c :: l.
Proof. intros H. simpl. rewrite H. reflexivity. Qed.

(** Stripping a list that starts and ends with something else than
    whitespace leaves it as it is. *)
Lemma strip_chars_id c (l : list ascii) d :
  is_space c = false -> is_space d = false ->
  strip_chars (c :: l ++ [d]) = c :: l ++ [d].
Proof.
  intros Hc Hd. unfold strip_chars.
  rewrite (drop_while_id is_space c (l ++ [d]) Hc).
  rewrite (app_comm_cons l [d] c), rev_unit.
  rewrite (drop_while_id is_space d (rev (c :: l)) Hd).
  change (rev (d :: rev (c :: l))) with (rev (rev (c :: l)) ++ [d]).
  rewrite rev_involutive. reflexivity.
Qed.

Lemma strip_chars_single c : is_space c = false -> strip_chars [c] = [c].
Proof. intros Hc. unfold strip_chars. simpl. rewrite Hc. simpl. rewrite Hc. reflexivity. Qed.

(** A stripped list is empty, one character that is no whitespace, or
    starts and ends with characters that are no whitespace. *)
Lemma strip_chars_shape (l : list ascii) :
  strip_chars l = []
  \/ (exists c, strip_chars l = [c] /\ is_space c = false)
  \/ (exists c m d,
        strip_chars l = c :: m ++ [d]
        /\ is_space c = false /\ is_space d = false).
Proof.
  unfold strip_chars.
  pose proof (drop_while_head is_space l) as Hc.
  destruct (drop_while is_space l) as [|c a]; [left; reflexivity|].
  right.
  change (rev (c :: a)) with (rev a ++ [c]).
  rewrite (drop_while_app_last is_space (rev a) c Hc), rev_unit.
  pose proof (drop_while_head is_space (rev a)) as Hd.
  destruct (drop_while is_space (rev a)) as [|d b].
  - left. exists c. auto.
  - right. exists c, (rev b), d. auto.
Qed.

Lemma strip_chars_idem (l : list ascii) :
  strip_chars (strip_chars l) = strip_chars l.
Proof.
  destruct (strip_chars_shape l)
    as [-> | [(c & -> & Hc) | (c & m & d & -> & Hc & Hd)]].
  - reflexivity.
  - apply strip_chars_single, Hc.
  - apply strip_chars_id; assumption.
Qed.

Lemma Forall_drop_while (P : ascii -> Prop) p (l : list ascii) :
  Forall P l -> Forall P (drop_while p l).
Proof.
  induction 1 as [|c l Hc Hl IH]; simpl; [constructor|].
  destruct (p c); [exact IH | constructor; assumption].
Qed.

Lemma Forall_take_while (P : ascii -> Prop) p (l : list ascii) :
  Forall P l -> Forall P (take_while p l).
Proof.
  induction 1 as [|c l Hc Hl IH]; simpl; [constructor|].
  destruct (p c); constructor; assumption.
Qed.

Lemma Forall_take_while_class p (l : list ascii) :
  Forall (fun c => p c = true) (take_while p l).
Proof.
  induction l as [|c l IH]; simpl; [constructor|].
  destruct (p c) eqn:E; constructor; assumption.
Qed.

Lemma Forall_strip_chars (P : ascii -> Prop) (l : list ascii) :
  Forall P l -> Forall P (strip_chars l).
Proof.
  intros H. unfold strip_chars.
  apply Forall_rev, Forall_drop_while, Forall_rev, Forall_drop_while, H.
Qed.




(** ** The classification returned *)

Lemma trimmed_line_literal s :
  s <> "" -> strip s = s -> forallb (fun c => negb (Ascii.eqb c newline)) (of_str s) = true ->
  trimmed_line s.
Proof.
  intros H1 H2 H3. split; [exact H1|]. split; [exact H2|].
  intros Hin. rewrite forallb_forall in H3.
  apply list_elem_of_In in Hin. specialize (H3 _ Hin).
  rewrite Ascii.eqb_refl in H3. discriminate.
Qed.



Lemma sub_request_types_keys key allowed :
  SUB_REQUEST_TYPES !! key = Some allowed ->
  key ∈ REQUEST_TYPES
  /\ key <> "Adjustment" /\ key <> "AU Trasfer".
Proof.
  unfold SUB_REQUEST_TYPES. intros H.
  repeat (apply lookup_insert_Some in H;
          destruct H as [[<- _] | [_ H]];
          [split; [apply list_elem_of_In; simpl; tauto | split; discriminate]|]).
  rewrite lookup_empty in H. discriminate.
Qed.

(** X5. A classification that carries a sub request has a primary
    request from the list of request types, one that has sub types (so
    neither "Adjustment" nor "AU Trasfer"), and the sub request is one of
    the sub types listed for it.  Under any other primary request,
    including "Error" and "Unknown", the sub request is None. *)
Theorem X5_sub_request_implies_listed_primary
    (post : string -> post_outcome) (email_text : string)
    (c : ClassificationResult) (s : string) :
  call_openrouter_deepseek post email_text = Ok c ->
  sub_request c = Some s ->
  primary_request c ∈ REQUEST_TYPES
  /\ primary_request c <> "Adjustment"
  /\ primary_request c <> "AU Trasfer"
  /\ exists allowed,
       SUB_REQUEST_TYPES !! primary_request c = Some allowed /\ s ∈ allowed.
Proof.
  intros Hc Hsub. destruct (post (prompt email_text)) as [e|response] eqn:Hp.
  { rewrite (call_openrouter_deepseek_raised _ _ _ Hp) in Hc. discriminate. }
  destruct (Z.eq_dec (status_code response) 200%Z) as [Hs|Hs].
  - rewrite (call_openrouter_deepseek_200 _ _ _ Hp Hs) in Hc.
    destruct (message_content response) as [response_text|]; [|discriminate].
    simpl in Hc. injection Hc as <-. simpl in Hsub |- *.
    apply parse_sub_some in Hsub.
    destruct Hsub as (_ & _ & allowed & Ha & Hin).
    destruct (sub_request_types_keys _ _ Ha) as (H1 & H2 & H3).
    repeat split; try assumption. eauto.
  - rewrite (call_openrouter_deepseek_not_200 _ _ _ Hp Hs) in Hc.
    injection Hc as <-. discriminate.
Qed.

Lemma X5_witness :
  "Fee Payment" ∈ REQUEST_TYPES.
Proof.
  refine (proj1 (X5_sub_request_implies_listed_primary
                   (answering (three_lines "Fee Payment" "Ongoing Fee" "Confidence: 0.9"))
                   "hello"
                   {| primary_request := "Fee Payment";
                      sub_request := Some "Ongoing Fee";
                      confidence := Some (round_binary64 9 10);
                      details := "DeepSeek R1 analysis confirms the classification." |}
                   "Ongoing Fee" _ _)).
  - vm_compute. reflexivity.
  - reflexivity.
Defined.

(** X6. A response with status 200 whose body lacks the expected keys is
    not an error: when the decoded body is a dict without "choices", or
    its first choice is a dict without "message", or the message is a
    dict without "content", the defaults of the lookups apply and the
    classification is "Unknown", with no sub request and no confidence. *)
Theorem X6_missing_keys_give_unknown
    (post : string -> post_outcome) (email_text : string) (response : Response) :
  post (prompt email_text) = Responded response ->
  status_code response = 200%Z ->
  (forall items,
     json response = Ok (JDict items) ->
     assoc "choices" items = None ->
     call_openrouter_deepseek post email_text = Ok unknown_classification)
  /\ (forall items choice others,
        json response = Ok (JDict items) ->
        assoc "choices" items = Some (JList (JDict choice :: others)) ->
        assoc "message" choice = None ->
        call_openrouter_deepseek post email_text = Ok unknown_classification)
  /\ (forall items choice others message,
        json response = Ok (JDict items) ->
        assoc "choices" items = Some (JList (JDict choice :: others)) ->
        assoc "message" choice = Some (JDict message) ->
        assoc "content" message = None ->
        call_openrouter_deepseek post email_text = Ok unknown_classification).
Proof.
  intros Hp Hs.
  assert (Hu : forall response_text,
             response_text = "Unknown" ->
             message_content response = Ok response_text ->
             call_openrouter_deepseek post email_text = Ok unknown_classification).
  { intros response_text -> Hm.
    rewrite (call_openrouter_deepseek_200 _ _ _ Hp Hs), Hm.
    vm_compute. reflexivity. }
  split; [|split].
  - intros items Hj Hc. apply (Hu "Unknown"); [reflexivity|].
    unfold message_content. rewrite Hj. simpl. rewrite Hc. reflexivity.
  - intros items choice others Hj Hc Hm. apply (Hu "Unknown"); [reflexivity|].
    unfold message_content. rewrite Hj. simpl. rewrite Hc. simpl.
    rewrite Hm. reflexivity.
  - intros items choice others message Hj Hc Hm Hk.
    apply (Hu "Unknown"); [reflexivity|].
    unfold message_content. rewrite Hj. simpl. rewrite Hc. simpl.
    rewrite Hm. simpl. rewrite Hk. reflexivity.
Qed.

Lemma X6_witness :
  call_openrouter_deepseek
    (fun _ => Responded {| status_code := 200;
                           text := "{}";
                           json := Ok (JDict [("error", JStr "rate limited")]) |})
    "hello"
  = Ok unknown_classification.
Proof.
  refine (proj1 (X6_missing_keys_give_unknown
                   (fun _ => Responded
                               {| status_code := 200;
                                  text := "{}";
                                  json := Ok (JDict [("error", JStr "rate limited")]) |})
                   "hello"
                   {| status_code := 200;
                      text := "{}";
                      json := Ok (JDict [("error", JStr "rate limited")]) |}
                   _ _) [("error", JStr "rate limited")] _ _);
    reflexivity.
Defined.

(** X7. With status 200 the body is trusted to have the expected
    structure.  A body that is not JSON, an empty list of choices, and a
    content that is null each make the call raise (JSONDecodeError,
    IndexError, AttributeError); [process_email] lets the exception
    through, after the hash of the text has been recorded. *)
Theorem X7_malformed_success_body_raises
    (sha256_hexdigest : string -> string) (post : string -> post_outcome)
    (email_text : string) (attachments : option (list string)) (st : HashSet)
    (response : Response) :
  post (prompt email_text) = Responded response ->
  status_code response = 200%Z ->
  let run := process_email sha256_hexdigest post email_text attachments st in
  (forall e,
     json response = Raise e ->
     call_openrouter_deepseek post email_text = Raise e
     /\ run = ({[sha256_hexdigest email_text]} ∪ st, Raise e))
  /\ (forall items,
        json response = Ok (JDict items) ->
        assoc "choices" items = Some (JList []) ->
        exists msg,
          call_openrouter_deepseek post email_text = Raise (IndexError msg)
          /\ run = ({[sha256_hexdigest email_text]} ∪ st, Raise (IndexError msg)))
  /\ (forall items choice others message,
        json response = Ok (JDict items) ->
        assoc "choices" items = Some (JList (JDict choice :: others)) ->
        assoc "message" choice = Some (JDict message) ->
        assoc "content" message = Some JNull ->
        exists msg,
          call_openrouter_deepseek post email_text = Raise (AttributeError msg)
          /\ run = ({[sha256_hexdigest email_text]} ∪ st,
                    Raise (AttributeError msg))).
Proof.
  intros Hp Hs run. subst run.
  assert (Hr : forall e,
             message_content response = Raise e ->
             call_openrouter_deepseek post email_text = Raise e
             /\ process_email sha256_hexdigest post email_text attachments st
                = ({[sha256_hexdigest email_text]} ∪ st, Raise e)).
  { intros e Hm.
    assert (Hc : call_openrouter_deepseek post email_text = Raise e).
    { rewrite (call_openrouter_deepseek_200 _ _ _ Hp Hs), Hm. reflexivity. }
    split; [exact Hc|].
    rewrite (process_email_raise _ _ _ attachments st _ Hc). f_equal.
    destruct (decide (sha256_hexdigest email_text ∈ st)) as [Hin|Hin].
    - rewrite is_duplicate_seen by exact Hin. simpl. set_solver.
    - rewrite is_duplicate_new by exact Hin. reflexivity. }
  split; [|split].
  - intros e Hj. apply Hr. unfold message_content. rewrite Hj. reflexivity.
  - intros items Hj Hc. eexists. apply Hr.
    unfold message_content. rewrite Hj. simpl. rewrite Hc. reflexivity.
  - intros items choice others message Hj Hc Hm Hk. eexists. apply Hr.
    unfold message_content. rewrite Hj. simpl. rewrite Hc. simpl.
    rewrite Hm. simpl. rewrite Hk. reflexivity.
Qed.

Lemma X7_witness :
  exists msg,
    call_openrouter_deepseek
      (fun _ => Responded {| status_code := 200;
                             text := "{}";
                             json := Ok (JDict [("choices", JList [])]) |})
      "hello"
    = Raise (IndexError msg).
Proof.
  destruct (X7_malformed_success_body_raises
              (fun s => s)
              (fun _ => Responded {| status_code := 200;
                                     text := "{}";
                                     json := Ok (JDict [("choices", JList [])]) |})
              "hello" None ∅
              {| status_code := 200;
                 text := "{}";
                 json := Ok (JDict [("choices", JList [])]) |})
    as (_ & H & _); [reflexivity | reflexivity |].
  destruct (H [("choices", JList [])]) as (msg & Hc & _);
    [reflexivity | reflexivity |].
  exists msg. exact Hc.
Defined.

(** ** Confidence values *)

Lemma py_float_nonneg s q : py_float s = Ok q -> pyfloat_le (Finite 0) q.
Proof.
  unfold py_float.
  destruct (drop_while is_digit (of_str s)) as [|c frac_part].
  - destruct (nonempty _); [|discriminate].
    intros H. injection H as <-. apply round_binary64_nonneg.
  - destruct (_ && _ && _); [|discriminate].
    intros H. injection H as <-. apply round_binary64_nonneg.
Qed.

(** X8. A confidence is never negative: the pattern admits no sign, so
    whatever the backend writes, the confidence of a classification is
    None or at least 0 (it may exceed 1). *)
Theorem X8_confidence_never_negative
    (post : string -> post_outcome) (email_text : string)
    (c : ClassificationResult) (q : pyfloat) :
  call_openrouter_deepseek post email_text = Ok c ->
  confidence c = Some q ->
  pyfloat_le (Finite 0) q.
Proof.
  intros Hc Hq. destruct (post (prompt email_text)) as [e|response] eqn:Hp.
  { rewrite (call_openrouter_deepseek_raised _ _ _ Hp) in Hc. discriminate. }
  destruct (Z.eq_dec (status_code response) 200%Z) as [Hs|Hs].
  - rewrite (call_openrouter_deepseek_200 _ _ _ Hp Hs) in Hc.
    destruct (message_content response) as [response_text|]; [|discriminate].
    simpl in Hc. injection Hc as <-. simpl in Hq.
    unfold parse_confidence in Hq.
    destruct (2 <? _)%nat; [|discriminate].
    destruct (search _ _) as [g|]; [|discriminate].
    destruct (py_float _) as [x|] eqn:E; [|discriminate].
    injection Hq as <-. eapply py_float_nonneg, E.
  - rewrite (call_openrouter_deepseek_not_200 _ _ _ Hp Hs) in Hc.
    injection Hc as <-. simpl in Hq. injection Hq as <-. apply Qle_refl.
Qed.

Lemma X8_witness : pyfloat_le (Finite 0) (round_binary64 9 10).
Proof.
  refine (X8_confidence_never_negative
            (answering (three_lines "Fee Payment" "Ongoing Fee" "Confidence: 0.9"))
            "hello"
            {| primary_request := "Fee Payment";
               sub_request := Some "Ongoing Fee";
               confidence := Some (round_binary64 9 10);
               details := "DeepSeek R1 analysis confirms the classification." |}
            (round_binary64 9 10) _ _).
  - vm_compute. reflexivity.
  - reflexivity.
Defined.

(** ** Blank lines *)

Lemma of_str_app a b : of_str (a +:+ b) = of_str a ++ of_str b.
Proof.
  induction a as [|c a IH]; [reflexivity|].
  simpl. unfold of_str in *. simpl. rewrite IH. reflexivity.
Qed.

Lemma to_of_str s : to_str (of_str s) = s.
Proof. apply string_of_list_ascii_of_string. Qed.

Lemma split_newline_nonempty l : split_newline l <> [].
Proof.
  destruct l as [|c l]; simpl; [discriminate|].
  destruct (Ascii.eqb c newline); [discriminate|].
  destruct (split_newline l); discriminate.
Qed.

(** Splitting distributes over a line break. *)
Lemma split_newline_app a b :
  split_newline (a ++ newline :: b) = split_newline a ++ split_newline b.
Proof.
  induction a as [|c a IH]; [reflexivity|].
  simpl. destruct (Ascii.eqb c newline).
  - rewrite IH. reflexivity.
  - rewrite IH. pose proof (split_newline_nonempty a) as Hne.
    destruct (split_newline a) as [|line lines]; [contradiction|]. reflexivity.
Qed.

Lemma split_newline_one_line l :
  Forall (fun c => c <> newline) l -> split_newline l = [l].
Proof.
  induction 1 as [|c l Hc Hl IH]; [reflexivity|].
  simpl. destruct (Ascii.eqb_spec c newline); [contradiction|].
  rewrite IH. reflexivity.
Qed.

Lemma split_newline_Forall (P : ascii -> Prop) l :
  Forall P l -> Forall (Forall P) (split_newline l).
Proof.
  induction 1 as [|c l Hc Hl IH]; simpl; [repeat constructor|].
  destruct (Ascii.eqb c newline); [constructor; [constructor | exact IH]|].
  destruct (split_newline l) as [|line lines]; [repeat constructor; exact Hc|].
  inversion IH; subst. constructor; [constructor|]; assumption.
Qed.

Lemma drop_while_nil_Forall p (l : list ascii) :
  drop_while p l = [] -> Forall (fun c => p c = true) l.
Proof.
  induction l as [|c l IH]; [constructor|].
  simpl. destruct (p c) eqn:E; [|discriminate].
  intros H. constructor; [exact E | apply IH, H].
Qed.

Lemma Forall_drop_while_nil p (l : list ascii) :
  Forall (fun c => p c = true) l -> drop_while p l = [].
Proof.
  induction 1 as [|c l Hc Hl IH]; [reflexivity|].
  simpl. rewrite Hc. exact IH.
Qed.

Lemma strip_chars_nil_Forall l :
  strip_chars l = [] -> Forall (fun c => is_space c = true) l.
Proof.
  intros H. apply drop_while_nil_Forall.
  unfold strip_chars in H.
  pose proof (drop_while_head is_space l) as Hc.
  destruct (drop_while is_space l) as [|c a]; [reflexivity|].
  change (rev (c :: a)) with (rev a ++ [c]) in H.
  rewrite (drop_while_app_last is_space (rev a) c Hc), rev_unit in H.
  discriminate.
Qed.

Lemma Forall_space_strip_chars l :
  Forall (fun c => is_space c = true) l -> strip_chars l = [].
Proof.
  intros H. unfold strip_chars. rewrite (Forall_drop_while_nil _ _ H).
  reflexivity.
Qed.

Lemma strip_chars_fixed l : strip_chars l = l <-> no_space_ends l.
Proof.
  split.
  - intros H. unfold no_space_ends.
    destruct (strip_chars_shape l)
      as [E | [(c & E & Hc) | (c & m & d & E & Hc & Hd)]];
      rewrite H in E; subst l.
    + split; exact I.
    + split; exact Hc.
    + split; [exact Hc|].
      rewrite (app_comm_cons m [d] c), rev_unit. exact Hd.
  - intros [Hc Hd]. unfold strip_chars.
    destruct l as [|c a]; [reflexivity|].
    rewrite (drop_while_id is_space c a Hc).
    destruct (rev (c :: a)) as [|d b] eqn:E.
    + apply (f_equal (@rev ascii)) in E. rewrite rev_involutive in E.
      discriminate.
    + rewrite (drop_while_id is_space d b Hd), <- E. apply rev_involutive.
Qed.

Lemma no_space_ends_app a m z :
  a <> [] -> z <> [] -> no_space_ends a -> no_space_ends z ->
  no_space_ends (a ++ m ++ z).
Proof.
  intros Ha Hz [Hac _] [_ Hzd]. unfold no_space_ends.
  split.
  - destruct a as [|c a']; [contradiction | exact Hac].
  - rewrite !rev_app_distr.
    destruct (rev z) as [|d b] eqn:E; [|exact Hzd].
    apply (f_equal (@rev ascii)) in E. rewrite rev_involutive in E.
    contradiction.
Qed.

Lemma trimmed_line_chars s :
  trimmed_line s ->
  of_str s <> []
  /\ strip_chars (of_str s) = of_str s
  /\ Forall (fun c => c <> newline) (of_str s).
Proof.
  intros (Hne & Hs & Hn). split; [|split].
  - intros E. apply Hne. rewrite <- (to_of_str s), E. reflexivity.
  - unfold strip in Hs. apply (f_equal of_str) in Hs.
    rewrite of_to_str in Hs. exact Hs.
  - apply Forall_forall. intros c Hc ->. contradiction.
Qed.

Lemma filter_blank_pieces (pieces : list (list ascii)) :
  Forall (Forall (fun c => is_space c = true)) pieces ->
  filter (fun line => nonempty (strip_chars line) = true) pieces = [].
Proof.
  induction 1 as [|piece pieces Hpiece _ IH]; [reflexivity|].
  rewrite filter_cons. rewrite (Forall_space_strip_chars _ Hpiece).
  destruct (decide _) as [H|H]; [discriminate | exact IH].
Qed.

(** The lines of "first line, blank, last line". *)
Lemma response_lines_blank_between p blank l :
  trimmed_line p -> trimmed_line l -> strip blank = "" ->
  response_lines (p +:+ String newline (blank +:+ String newline l)) = [p; l].
Proof.
  intros Hp Hl Hb.
  destruct (trimmed_line_chars p Hp) as (Hp1 & Hp2 & Hp3).
  destruct (trimmed_line_chars l Hl) as (Hl1 & Hl2 & Hl3).
  assert (Hblank : Forall (fun c => is_space c = true) (of_str blank)).
  { apply strip_chars_nil_Forall. unfold strip in Hb.
    apply (f_equal of_str) in Hb. rewrite of_to_str in Hb. exact Hb. }
  unfold response_lines.
  assert (Htext : of_str (p +:+ String newline (blank +:+ String newline l))
                  = of_str p ++ (newline :: of_str blank ++ [newline]) ++ of_str l).
  { rewrite of_str_app. f_equal.
    change (of_str (String newline (blank +:+ String newline l)))
      with (newline :: of_str (blank +:+ String newline l)).
    rewrite of_str_app. simpl. rewrite <- app_assoc. reflexivity. }
  rewrite Htext.
  assert (Hfix : strip_chars (of_str p ++ (newline :: of_str blank ++ [newline])
                              ++ of_str l)
                 = of_str p ++ (newline :: of_str blank ++ [newline]) ++ of_str l).
  { apply strip_chars_fixed, no_space_ends_app; try assumption;
      apply strip_chars_fixed; assumption. }
  rewrite Hfix.
  assert (Hsplit : split_newline
                     (of_str p ++ (newline :: of_str blank ++ [newline])
                      ++ of_str l)
                   = [of_str p] ++ split_newline (of_str blank) ++ [of_str l]).
  { change ((newline :: of_str blank ++ [newline]) ++ of_str l)
      with (newline :: (of_str blank ++ [newline]) ++ of_str l).
    rewrite split_newline_app, <- app_assoc.
    change ([newline] ++ of_str l) with (newline :: of_str l).
    rewrite split_newline_app.
    rewrite (split_newline_one_line _ Hp3), (split_newline_one_line _ Hl3).
    reflexivity. }
  rewrite Hsplit, !filter_app, !map_app.
  assert (Hmid : filter (fun line => nonempty (strip_chars line) = true)
                   (split_newline (of_str blank)) = []).
  { apply filter_blank_pieces, split_newline_Forall, Hblank. }
  rewrite Hmid.
  assert (Hone : forall s,
             of_str s <> [] -> strip_chars (of_str s) = of_str s ->
             map (fun line => to_str (strip_chars line))
               (filter (fun line => nonempty (strip_chars line) = true) [of_str s])
             = [s]).
  { intros s Hne Hs. rewrite filter_cons, Hs.
    destruct (decide _) as [H|H].
    - simpl. rewrite Hs, to_of_str. reflexivity.
    - destruct (of_str s); [contradiction | contradiction H; reflexivity]. }
  rewrite (Hone p Hp1 Hp2), (Hone l Hl1 Hl2). reflexivity.
Qed.

(** X9. Blank lines are not counted.  When the answer has the primary
    request on its first line, a blank second line (as the prompt asks
    for when there is no sub request) and a third line, that third line
    is taken as the candidate sub request and no line is left for the
    confidence: the confidence is None whatever the third line says. *)
Theorem X9_blank_second_line_loses_confidence
    (post : string -> post_outcome) (email_text : string) (response : Response)
    (p blank l : string) :
  post (prompt email_text) = Responded response ->
  status_code response = 200%Z ->
  message_content response
  = Ok (p +:+ String newline (blank +:+ String newline l)) ->
  trimmed_line p -> trimmed_line l -> strip blank = "" ->
  exists c,
    call_openrouter_deepseek post email_text = Ok c
    /\ primary_request c = p
    /\ confidence c = None
    /\ sub_request c = parse_sub [p; l]
    /\ (sub_request c = None \/ sub_request c = Some l).
Proof.
  intros Hp Hs Hm Tp Tl Hb.
  rewrite (call_openrouter_deepseek_200 _ _ _ Hp Hs), Hm. simpl.
  rewrite (response_lines_blank_between p blank l Tp Tl Hb).
  eexists. split; [reflexivity|]. simpl.
  split; [reflexivity|]. split; [reflexivity|]. split; [reflexivity|].
  destruct (parse_sub [p; l]) as [s|] eqn:E; [|left; reflexivity].
  right. apply parse_sub_some in E. destruct E as (E & _).
  simpl in E. injection E as <-. reflexivity.
Qed.

Lemma X9_witness :
  exists c,
    call_openrouter_deepseek
      (answering (three_lines "Adjustment" "" "Confidence: 0.9")) "hello" = Ok c
    /\ confidence c = None.
Proof.
  destruct (X9_blank_second_line_loses_confidence
              (answering (three_lines "Adjustment" "" "Confidence: 0.9")) "hello"
              {| status_code := 200;
                 text := "";
                 json := Ok (JDict [("choices",
                                     JList [JDict [("message",
                                                    JDict [("content",
                                                            JStr (three_lines "Adjustment" "" "Confidence: 0.9"))])]])]) |}
              "Adjustment" "" "Confidence: 0.9")
    as (c & Hc & _ & Hq & _).
  - reflexivity.
  - reflexivity.
  - reflexivity.
  - apply trimmed_line_literal; [discriminate | reflexivity | reflexivity].
  - apply trimmed_line_literal; [discriminate | reflexivity | reflexivity].
  - reflexivity.
  - exists c. split; [exact Hc | exact Hq].
Defined.

(** ** The amount *)

Lemma take_while_drop_while p (l : list ascii) :
  take_while p l ++ drop_while p l = l.
Proof.
  induction l as [|c l IH]; [reflexivity|].
  simpl. destruct (p c); [simpl; rewrite IH|]; reflexivity.
Qed.

Lemma take_app_sub (a r : list ascii) :
  take (length (a ++ r) - length r) (a ++ r) = a.
Proof.
  rewrite length_app. replace (length a + length r - length r)%nat
    with (length a) by lia.
  apply take_app_length.
Qed.

Lemma cents_prefix r : cents r ++ drop (length (cents r)) r = r.
Proof.
  destruct r as [|c [|d1 [|d2 r]]]; try reflexivity.
  cbn -[Ascii.eqb is_digit]. destruct (_ && _ && _); reflexivity.
Qed.

(** Whitespace before something that cannot start with whitespace is
    skipped whole. *)
Lemma greedy_space_skip {X : Type} (f : list ascii -> option X) s g :
  (forall c t, is_space c = true -> f (c :: t) = None) ->
  greedy is_space s g (fun s' _ => f s') = f (drop_while is_space s).
Proof.
  intros Hf. induction s as [|c s IH]; [reflexivity|].
  simpl. destruct (is_space c) eqn:Hc; [|reflexivity].
  rewrite IH. destruct (f (drop_while is_space s)) eqn:E; [reflexivity|].
  rewrite (Hf c s Hc). reflexivity.
Qed.

Lemma space_not_digit_or_comma c : is_space c = true -> digit_or_comma c = false.
Proof. destruct c as [[] [] [] [] [] [] [] []]; vm_compute; congruence. Qed.

(** The optional cents, before a continuation that always answers. *)
Lemma rmatch_opt_cents {X : Type} (h : list ascii -> X) r g :
  Re.rmatch
    (Re.Opt (Re.Seq (Re.Chr ".") (Re.Times 2 (Re.Cls is_digit)))) r g
    (fun s' _ => Some (h s'))
  = Some (h (drop (length (cents r)) r)).
Proof.
  destruct r as [|c [|d1 [|d2 r]]]; cbn -[Ascii.eqb is_digit].
  - reflexivity.
  - destruct (Ascii.eqb "." c); reflexivity.
  - destruct (Ascii.eqb "." c); [|reflexivity].
    destruct (is_digit d1); reflexivity.
  - destruct (Ascii.eqb "." c); [|reflexivity].
    destruct (is_digit d1); [|reflexivity].
    destruct (is_digit d2); reflexivity.
Qed.

Lemma rmatch_amount_group t g :
  Re.rmatch
    (Re.Grp
       (Re.Seq (Re.Plus (Re.Cls digit_or_comma))
          (Re.Opt (Re.Seq (Re.Chr ".") (Re.Times 2 (Re.Cls is_digit))))))
    t g (fun _ g' => Some g')
  = Some <$> amount_group t.
Proof.
  unfold amount_group. destruct t as [|c t1]; [reflexivity|].
  change (Re.rmatch (Re.Grp (Re.Seq (Re.Plus (Re.Cls digit_or_comma)) ?o))
            (c :: t1) g ?k)
    with (if digit_or_comma c
          then Re.rmatch (Re.Star (Re.Cls digit_or_comma)) t1 g
                 (fun s1 g1 =>
                    Re.rmatch o s1 g1
                      (fun s' _ =>
                         Some (Some (take (length (c :: t1) - length s') (c :: t1)))))
          else None).
  destruct (digit_or_comma c) eqn:Hc; [|simpl; rewrite Hc; reflexivity].
  rewrite rmatch_star_cls.
  rewrite (greedy_ext _ _ _ _
             (fun s1 _ =>
                Some (Some (take (length (c :: t1)
                                  - length (drop (length (cents s1)) s1))
                              (c :: t1)))))
    by (intros s' g'; apply rmatch_opt_cents).
  rewrite greedy_total by eauto.
  assert (Ht : c :: t1
               = (take_while digit_or_comma (c :: t1)
                  ++ cents (drop_while digit_or_comma t1))
                 ++ drop (length (cents (drop_while digit_or_comma t1)))
                      (drop_while digit_or_comma t1)).
  { rewrite <- app_assoc, cents_prefix.
    rewrite <- (take_while_drop_while digit_or_comma (c :: t1)) at 1.
    simpl. rewrite Hc. reflexivity. }
  assert (Hd : drop_while digit_or_comma (c :: t1) = drop_while digit_or_comma t1)
    by (simpl; rewrite Hc; reflexivity).
  rewrite Hd.
  assert (Hn : nonempty (take_while digit_or_comma (c :: t1)) = true)
    by (simpl; rewrite Hc; reflexivity).
  rewrite Hn. simpl fmap. f_equal. f_equal.
  pose proof (take_app_sub
                (take_while digit_or_comma (c :: t1)
                 ++ cents (drop_while digit_or_comma t1))
                (drop (length (cents (drop_while digit_or_comma t1)))
                   (drop_while digit_or_comma t1))) as Hk.
  rewrite <- Ht in Hk. exact Hk.
Qed.

Lemma amount_group_space c t : is_space c = true -> amount_group (c :: t) = None.
Proof.
  intros Hc. unfold amount_group. simpl.
  rewrite (space_not_digit_or_comma c Hc). reflexivity.
Qed.

Lemma re_match_amount s :
  Re.re_match amount_pattern s = Some <$> amount_here s.
Proof.
  unfold Re.re_match, amount_pattern, amount_here.
  destruct s as [|c s]; [reflexivity|].
  change (Re.rmatch (Re.Seq (Re.Chr "$") (Re.Seq ?w ?b)) (c :: s) None ?k)
    with (if Ascii.eqb "$" c
          then Re.rmatch w s None (fun s' g' => Re.rmatch b s' g' k)
          else None).
  destruct (Ascii.eqb "$" c); [|reflexivity].
  rewrite rmatch_star_cls.
  rewrite (greedy_ext _ _ _ _ (fun s' _ => Some <$> amount_group s'))
    by (intros s' g'; apply rmatch_amount_group).
  rewrite (greedy_space_skip (fun s' => Some <$> amount_group s')).
  - reflexivity.
  - intros x t Hx. rewrite (amount_group_space x t Hx). reflexivity.
Qed.

Lemma amount_of_first_at email_text :
  amount_of email_text = to_str <$> first_at amount_here (of_str email_text).
Proof.
  unfold amount_of, search. rewrite re_search_first_at.
  rewrite (first_at_ext _ (fun t => Some <$> amount_here t))
    by apply re_match_amount.
  rewrite first_at_fmap.
  destruct (first_at amount_here (of_str email_text)); reflexivity.
Qed.

Lemma first_at_suffix {X : Type} (f : list ascii -> option X) s x :
  first_at f s = Some x -> exists pre t, s = pre ++ t /\ f t = Some x.
Proof.
  induction s as [|c s IH]; simpl; destruct (f _) eqn:E; intros H;
    try discriminate.
  - injection H as ->. exists [], []. auto.
  - injection H as ->. exists [], (c :: s). auto.
  - destruct (IH H) as (pre & t & -> & Ht). exists (c :: pre), t. auto.
Qed.

Lemma fields_of_amount email_text :
  fields_of email_text !! "amount" = Some (amount_of email_text).
Proof.
  unfold fields_of, Fields. rewrite lookup_insert_ne by discriminate.
  apply lookup_insert_eq.
Qed.

Lemma fields_of_expiration_date email_text :
  fields_of email_text !! "expiration_date"
  = Some (expiration_date_of email_text).
Proof. unfold fields_of, Fields. apply lookup_insert_eq. Qed.

Lemma fields_of_deal_name email_text :
  fields_of email_text !! "deal_name" = Some (deal_name_of email_text).
Proof.
  unfold fields_of, Fields. rewrite !lookup_insert_ne by discriminate.
  apply lookup_insert_eq.
Qed.

(** X10. The amount is found at the first dollar sign that is followed,
    after optional whitespace, by a digit or a comma: it is the longest
    run of digits and commas there, together with a dot and two digits
    when these come right after the run.  Where there is no such place
    the amount is None. *)
Theorem X10_amount_is_run_after_dollar_sign (email_text : string) :
  exists fields,
    extract_fields email_text = Ok fields
    /\ fields !! "amount"
       = Some (to_str <$> first_at amount_here (of_str email_text)).
Proof.
  exists (fields_of email_text). split; [apply extract_fields_ok|].
  rewrite fields_of_amount, amount_of_first_at. reflexivity.
Qed.

(** X11. An amount that was found is never empty and holds neither the
    dollar sign nor whitespace: it is a run of digits and commas,
    possibly followed by a dot and exactly two digits; and the text has
    a dollar sign in it. *)
Theorem X11_amount_shape
    (email_text : string) (fields : Fields) (amount : string) :
  extract_fields email_text = Ok fields ->
  fields !! "amount" = Some (Some amount) ->
  exists run decimals,
    of_str amount = run ++ decimals
    /\ run <> []
    /\ Forall (fun c => digit_or_comma c = true) run
    /\ (decimals = []
        \/ exists d1 d2,
             decimals = ["."%char; d1; d2]
             /\ is_digit d1 = true /\ is_digit d2 = true)
    /\ "$"%char ∈ of_str email_text.
Proof.
  intros He Ha. rewrite extract_fields_ok in He. injection He as <-.
  rewrite fields_of_amount, amount_of_first_at in Ha.
  injection Ha as Ha.
  destruct (first_at amount_here (of_str email_text)) as [x|] eqn:E;
    [|discriminate].
  injection Ha as <-. rewrite of_to_str.
  apply first_at_suffix in E. destruct E as (pre & t & Ht & E).
  unfold amount_here in E. destruct t as [|c t]; [discriminate|].
  destruct (Ascii.eqb_spec "$" c) as [<-|]; [|discriminate].
  unfold amount_group in E.
  set (r := drop_while is_space t) in E.
  destruct (take_while digit_or_comma r) as [|x0 run] eqn:Er; [discriminate|].
  injection E as <-.
  exists (x0 :: run), (cents (drop_while digit_or_comma r)).
  split; [reflexivity|]. split; [discriminate|].
  split; [rewrite <- Er; apply Forall_take_while_class|].
  split.
  - destruct (drop_while digit_or_comma r) as [|c [|d1 [|d2 rest]]];
      try (left; reflexivity).
    cbn -[Ascii.eqb is_digit].
    destruct (Ascii.eqb_spec "." c) as [<-|]; [|left; reflexivity].
    destruct (is_digit d1) eqn:E1; [|left; reflexivity].
    destruct (is_digit d2) eqn:E2; [|left; reflexivity].
    right. exists d1, d2. auto.
  - rewrite Ht. apply elem_of_app. right. apply list_elem_of_here.
Qed.

Lemma X11_witness :
  exists run decimals, of_str "12,500.00" = run ++ decimals /\ run <> [].
Proof.
  destruct (X11_amount_shape
              "Hello, Deal: Project Falcon, amount due $12,500.00 by 5/1/2025"
              (fields_of "Hello, Deal: Project Falcon, amount due $12,500.00 by 5/1/2025")
              "12,500.00")
    as (run & decimals & H1 & H2 & _).
  - apply extract_fields_ok.
  - vm_compute. reflexivity.
  - exists run, decimals. split; assumption.
Defined.

(** ** The date *)

Lemma digit_not_slash c : is_digit c = true -> Ascii.eqb "/" c = false.
Proof. destruct c as [[] [] [] [] [] [] [] []]; vm_compute; congruence. Qed.

Lemma rmatch_day_or_month {X : Type} (R : Re.regex) s g (k : @Re.cont X) :
  Re.rmatch
    (Re.Seq (Re.OneOrTwo (Re.Cls is_digit)) (Re.Seq (Re.Chr "/") R)) s g k
  = match day_or_month s with
    | Some r => Re.rmatch R r g k
    | None => None
    end.
Proof.
  destruct s as [|d1 [|c2 [|c3 s3]]]; cbn -[Ascii.eqb is_digit].
  - reflexivity.
  - destruct (is_digit d1); reflexivity.
  - destruct (is_digit d1); [|reflexivity].
    destruct (is_digit c2) eqn:E2.
    + rewrite (digit_not_slash c2 E2). reflexivity.
    + destruct (Ascii.eqb "/" c2); reflexivity.
  - destruct (is_digit d1); [|reflexivity].
    destruct (is_digit c2) eqn:E2.
    + rewrite (digit_not_slash c2 E2).
      destruct (Ascii.eqb "/" c3); [|reflexivity].
      destruct (Re.rmatch R s3 g k); reflexivity.
    + destruct (Ascii.eqb "/" c2); reflexivity.
Qed.

Lemma rmatch_year {X : Type} s g (k : @Re.cont X) :
  Re.rmatch (Re.Times 4 (Re.Cls is_digit)) s g k
  = match year s with
    | Some r => k r g
    | None => None
    end.
Proof.
  destruct s as [|d1 [|d2 [|d3 [|d4 s']]]]; cbn -[is_digit];
    repeat match goal with
           | |- context [is_digit ?d] => destruct (is_digit d)
           end; reflexivity.
Qed.

Lemma re_match_date s : Re.re_match date_pattern s = Some <$> date_here s.
Proof.
  unfold Re.re_match, date_pattern, date_here.
  change (Re.rmatch (Re.Grp ?r) s None ?k)
    with (Re.rmatch r s None
            (fun s' _ => k s' (Some (take (length s - length s') s)))).
  rewrite rmatch_day_or_month.
  destruct (day_or_month s) as [s1|]; [|reflexivity].
  rewrite rmatch_day_or_month.
  destruct (day_or_month s1) as [s2|]; [|reflexivity].
  rewrite rmatch_year. destruct (year s2); reflexivity.
Qed.

Lemma expiration_date_of_first_at email_text :
  expiration_date_of email_text
  = to_str <$> first_at date_here (of_str email_text).
Proof.
  unfold expiration_date_of, search. rewrite re_search_first_at.
  rewrite (first_at_ext _ (fun t => Some <$> date_here t))
    by apply re_match_date.
  rewrite first_at_fmap.
  destruct (first_at date_here (of_str email_text)); reflexivity.
Qed.

(** X12. The expiration date is found at the first place where one or
    two digits, a slash, one or two digits, a slash and four digits
    follow one another; it is the text from there to the fourth digit of
    the year.  Where there is no such place it is None. *)
Theorem X12_expiration_date_is_first_date_shaped_text (email_text : string) :
  exists fields,
    extract_fields email_text = Ok fields
    /\ fields !! "expiration_date"
       = Some (to_str <$> first_at date_here (of_str email_text)).
Proof.
  exists (fields_of email_text). split; [apply extract_fields_ok|].
  rewrite fields_of_expiration_date, expiration_date_of_first_at. reflexivity.
Qed.

Lemma day_or_month_inv s r :
  day_or_month s = Some r ->
  exists a, s = a ++ "/"%char :: r /\ one_or_two_digits a.
Proof.
  unfold day_or_month, one_or_two_digits.
  destruct s as [|d1 [|c2 s2]]; try discriminate.
  - destruct (is_digit d1); discriminate.
  - destruct (is_digit d1) eqn:E1; [|discriminate].
    destruct (is_digit c2) eqn:E2.
    + destruct s2 as [|c3 s3]; [discriminate|].
      destruct (Ascii.eqb_spec "/" c3) as [<-|]; [|discriminate].
      intros H. injection H as <-. exists [d1; c2].
      split; [reflexivity|]. split; [right; reflexivity|].
      simpl. rewrite E1, E2. reflexivity.
    + destruct (Ascii.eqb_spec "/" c2) as [<-|]; [|discriminate].
      intros H. injection H as <-. exists [d1].
      split; [reflexivity|]. split; [left; reflexivity|].
      simpl. rewrite E1. reflexivity.
Qed.

Lemma year_inv s r :
  year s = Some r ->
  exists y, s = y ++ r /\ length y = 4%nat /\ forallb is_digit y = true.
Proof.
  unfold year. destruct s as [|d1 [|d2 [|d3 [|d4 s']]]]; try discriminate.
  destruct (is_digit d1 && is_digit d2 && is_digit d3 && is_digit d4) eqn:E;
    [|discriminate].
  intros H. injection H as <-. exists [d1; d2; d3; d4].
  split; [reflexivity|]. split; [reflexivity|].
  simpl. rewrite andb_true_r. rewrite <- !andb_assoc in E. exact E.
Qed.

Lemma date_here_inv s x :
  date_here s = Some x ->
  exists a b y,
    x = a ++ "/"%char :: b ++ "/"%char :: y
    /\ one_or_two_digits a /\ one_or_two_digits b
    /\ length y = 4%nat /\ forallb is_digit y = true.
Proof.
  unfold date_here.
  destruct (day_or_month s) as [s1|] eqn:E1; [|discriminate].
  destruct (day_or_month s1) as [s2|] eqn:E2; [|discriminate].
  destruct (year s2) as [s3|] eqn:E3; [|discriminate].
  intros H. injection H as <-.
  apply day_or_month_inv in E1. destruct E1 as (a & -> & Ha).
  apply day_or_month_inv in E2. destruct E2 as (b & -> & Hb).
  apply year_inv in E3. destruct E3 as (y & -> & Hy1 & Hy2).
  exists a, b, y. split; [|auto].
  replace (a ++ "/"%char :: b ++ "/"%char :: y ++ s3)
    with ((a ++ "/"%char :: b ++ "/"%char :: y) ++ s3).
  - apply take_app_sub.
  - rewrite <- !app_assoc. simpl. rewrite <- !app_assoc. reflexivity.
Qed.

(** X13. An expiration date that was found always has the shape of one
    or two digits, a slash, one or two digits, a slash and exactly four
    digits. *)
Theorem X13_expiration_date_shape
    (email_text : string) (fields : Fields) (date : string) :
  extract_fields email_text = Ok fields ->
  fields !! "expiration_date" = Some (Some date) ->
  exists a b y,
    of_str date = a ++ "/"%char :: b ++ "/"%char :: y
    /\ one_or_two_digits a /\ one_or_two_digits b
    /\ length y = 4%nat /\ forallb is_digit y = true.
Proof.
  intros He Hd. rewrite extract_fields_ok in He. injection He as <-.
  rewrite fields_of_expiration_date, expiration_date_of_first_at in Hd.
  injection Hd as Hd.
  destruct (first_at date_here (of_str email_text)) as [x|] eqn:E;
    [|discriminate].
  injection Hd as <-. rewrite of_to_str.
  apply first_at_some in E. destruct E as (t & E).
  eapply date_here_inv, E.
Qed.

Lemma X13_witness :
  exists a b y, of_str "5/1/2025" = a ++ "/"%char :: b ++ "/"%char :: y.
Proof.
  destruct (X13_expiration_date_shape
              "Hello, Deal: Project Falcon, amount due $12,500.00 by 5/1/2025"
              (fields_of "Hello, Deal: Project Falcon, amount due $12,500.00 by 5/1/2025")
              "5/1/2025")
    as (a & b & y & H & _).
  - apply extract_fields_ok.
  - vm_compute. reflexivity.
  - exists a, b, y. exact H.
Defined.

Lemma slash_not_digit : is_digit "/" = false.
Proof. reflexivity. Qed.

Lemma day_or_month_app a r :
  one_or_two_digits a -> day_or_month (a ++ "/"%char :: r) = Some r.
Proof.
  intros [Hlen Hd]. destruct a as [|a1 [|a2 [|a3 a]]]; simpl in Hlen;
    try (exfalso; lia).
  - simpl in Hd. rewrite andb_true_r in Hd.
    cbn -[is_digit Ascii.eqb]. rewrite Hd, slash_not_digit. reflexivity.
  - simpl in Hd. rewrite andb_true_r in Hd.
    apply andb_true_iff in Hd. destruct Hd as [H1 H2].
    cbn -[is_digit Ascii.eqb]. rewrite H1, H2. reflexivity.
Qed.

Lemma year_app y r :
  length y = 4%nat -> forallb is_digit y = true -> year (y ++ r) = Some r.
Proof.
  intros Hlen Hd. destruct y as [|d1 [|d2 [|d3 [|d4 [|d5 y]]]]];
    simpl in Hlen; try discriminate.
  simpl in Hd. rewrite andb_true_r in Hd.
  cbn -[is_digit]. rewrite <- !andb_assoc, Hd. reflexivity.
Qed.

Lemma first_at_skip {X : Type} (f : list ascii -> option X) pre s :
  (forall c t, c ∈ pre -> f (c :: t) = None) ->
  first_at f (pre ++ s) = first_at f s.
Proof.
  intros Hf. induction pre as [|c pre IH]; [reflexivity|].
  simpl. rewrite (Hf c (pre ++ s)) by apply list_elem_of_here.
  apply IH. intros c' t Hc'. apply Hf. apply list_elem_of_further, Hc'.
Qed.

Lemma first_at_here {X : Type} (f : list ascii -> option X) s x :
  f s = Some x -> first_at f s = Some x.
Proof. intros H. destruct s; simpl; rewrite H; reflexivity. Qed.

Lemma date_here_not_digit c t : is_digit c = false -> date_here (c :: t) = None.
Proof. intros Hc. unfold date_here, day_or_month. rewrite Hc. reflexivity. Qed.

(** X14. Nothing checks that the date exists in a calendar, and nothing
    ends the year: after a stretch of text without digits, any one or
    two digits, slash, one or two digits, slash and four digits are
    taken as the expiration date, whatever the numbers and whatever
    follows (a longer year is cut after its fourth digit). *)
Theorem X14_expiration_date_not_validated
    (before a b y after : list ascii) :
  Forall (fun c => is_digit c = false) before ->
  one_or_two_digits a -> one_or_two_digits b ->
  length y = 4%nat -> forallb is_digit y = true ->
  exists fields,
    extract_fields
      (to_str (before ++ a ++ "/"%char :: b ++ "/"%char :: y ++ after))
    = Ok fields
    /\ fields !! "expiration_date"
       = Some (Some (to_str (a ++ "/"%char :: b ++ "/"%char :: y))).
Proof.
  intros Hb Ha Hbb Hy1 Hy2. eexists. split; [apply extract_fields_ok|].
  rewrite fields_of_expiration_date, expiration_date_of_first_at, of_to_str.
  rewrite first_at_skip.
  2:{ intros c t Hc. apply date_here_not_digit.
      rewrite Forall_forall in Hb. apply Hb, Hc. }
  assert (Hh : date_here (a ++ "/"%char :: b ++ "/"%char :: y ++ after)
               = Some (a ++ "/"%char :: b ++ "/"%char :: y)).
  { unfold date_here.
    rewrite (day_or_month_app a _ Ha), (day_or_month_app b _ Hbb).
    rewrite (year_app y after Hy1 Hy2). f_equal.
    replace (a ++ "/"%char :: b ++ "/"%char :: y ++ after)
      with ((a ++ "/"%char :: b ++ "/"%char :: y) ++ after).
    - apply take_app_sub.
    - rewrite <- !app_assoc. simpl. rewrite <- !app_assoc. reflexivity. }
  rewrite (first_at_here _ _ _ Hh). reflexivity.
Qed.

Lemma X14_witness :
  exists fields,
    extract_fields "valid until 13/40/20999" = Ok fields
    /\ fields !! "expiration_date" = Some (Some "13/40/2099").
Proof.
  refine (X14_expiration_date_not_validated
            (of_str "valid until ") (of_str "13") (of_str "40") (of_str "2099")
            (of_str "9") _ _ _ _ _).
  - repeat constructor.
  - split; [right; reflexivity | reflexivity].
  - split; [right; reflexivity | reflexivity].
  - reflexivity.
  - reflexivity.
Defined.

(** ** The deal name *)

Lemma contains_app sub pre t rest :
  strip_prefix sub t = Some rest -> contains sub (pre ++ t) = true.
Proof.
  intros H. induction pre as [|c pre IH].
  - eapply strip_prefix_contains, H.
  - change (contains sub ((c :: pre) ++ t))
      with (match strip_prefix sub (c :: pre ++ t) with
            | Some _ => true
            | None => contains sub (pre ++ t)
            end).
    rewrite IH. destruct (strip_prefix sub (c :: pre ++ t)); reflexivity.
Qed.

(** X15. A deal name that was found has no whitespace at either end and
    is made of word characters, whitespace and hyphens only (it may be
    empty); and the text has the label [Deal:] in it. *)
Theorem X15_deal_name_trimmed
    (email_text : string) (fields : Fields) (deal : string) :
  extract_fields email_text = Ok fields ->
  fields !! "deal_name" = Some (Some deal) ->
  strip deal = deal
  /\ Forall (fun c => deal_char c = true) (of_str deal)
  /\ contains (of_str "Deal:") (of_str email_text) = true.
Proof.
  intros He Hd. rewrite extract_fields_ok in He. injection He as <-.
  rewrite fields_of_deal_name in Hd. injection Hd as Hd.
  unfold deal_name_of in Hd.
  destruct (first_at deal_here (of_str email_text)) as [x|] eqn:E;
    [|discriminate].
  injection Hd as <-.
  apply first_at_suffix in E. destruct E as (pre & t & Ht & E).
  unfold deal_here in E.
  destruct (strip_prefix (of_str "Deal:") t) as [rest|] eqn:Ep; [|discriminate].
  destruct (nonempty _); [|discriminate]. injection E as <-.
  split; [|split].
  - rewrite strip_to_str, strip_chars_idem. reflexivity.
  - rewrite of_to_str. apply Forall_strip_chars, Forall_take_while_class.
  - rewrite Ht. eapply contains_app, Ep.
Qed.

Lemma X15_witness : strip "Project Falcon" = "Project Falcon".
Proof.
  refine (proj1 (X15_deal_name_trimmed
                   "Hello, Deal: Project Falcon, amount due $12,500.00 by 5/1/2025"
                   (fields_of "Hello, Deal: Project Falcon, amount due $12,500.00 by 5/1/2025")
                   "Project Falcon" _ _)).
  - apply extract_fields_ok.
  - vm_compute. reflexivity.
Defined.

Lemma word_not_space c : is_word c = true -> is_space c = false.
Proof. destruct c as [[] [] [] [] [] [] [] []]; vm_compute; congruence. Qed.

Lemma word_is_deal_char c : is_word c = true -> deal_char c = true.
Proof. unfold deal_char. intros ->. reflexivity. Qed.

Lemma take_while_app_stop p (x tail : list ascii) :
  Forall (fun c => p c = true) x ->
  match tail with
  | c :: _ => p c = false
  | [] => True
  end ->
  take_while p (x ++ tail) = x.
Proof.
  intros Hx Ht. induction Hx as [|c x Hc _ IH]; simpl.
  - destruct tail as [|c tail]; [reflexivity|]. simpl. rewrite Ht. reflexivity.
  - rewrite Hc, IH. reflexivity.
Qed.

Lemma words_no_space_ends (w : list ascii) :
  forallb is_word w = true -> no_space_ends w.
Proof.
  intros H. rewrite forallb_forall in H. unfold no_space_ends. split.
  - destruct w as [|c w]; [exact I|]. apply word_not_space, H. left. reflexivity.
  - destruct (rev w) as [|d b] eqn:E; [exact I|].
    apply word_not_space, H. apply in_rev. rewrite E. left. reflexivity.
Qed.

(** X16. A line break does not end the deal name.  When the label is
    followed by a word, a line break and another word, the deal name
    holds both words with the line break between them; it ends only at
    a character that is no word character, whitespace or hyphen. *)
Theorem X16_deal_name_runs_over_line_breaks
    (first_word second_word after : list ascii) :
  first_word <> [] -> second_word <> [] ->
  forallb is_word first_word = true ->
  forallb is_word second_word = true ->
  match after with
  | c :: _ => deal_char c = false
  | [] => True
  end ->
  exists fields,
    extract_fields
      (to_str (of_str "Deal: " ++ first_word ++ newline :: second_word ++ after))
    = Ok fields
    /\ fields !! "deal_name"
       = Some (Some (to_str (first_word ++ newline :: second_word))).
Proof.
  intros Hne1 Hne2 Hw1 Hw2 Hafter.
  eexists. split; [apply extract_fields_ok|].
  rewrite fields_of_deal_name. unfold deal_name_of. rewrite of_to_str.
  assert (Hrun : Forall (fun c => deal_char c = true)
                   (" "%char :: first_word ++ newline :: second_word)).
  { constructor; [reflexivity|]. apply Forall_app. split.
    - apply Forall_forall. intros c Hc. apply word_is_deal_char.
      rewrite forallb_forall in Hw1. apply Hw1, list_elem_of_In, Hc.
    - constructor; [reflexivity|].
      apply Forall_forall. intros c Hc. apply word_is_deal_char.
      rewrite forallb_forall in Hw2. apply Hw2, list_elem_of_In, Hc. }
  assert (Hh : deal_here
                 (of_str "Deal: " ++ first_word ++ newline :: second_word ++ after)
               = Some (first_word ++ newline :: second_word)).
  { unfold deal_here.
    change (strip_prefix (of_str "Deal:")
              (of_str "Deal: " ++ first_word ++ newline :: second_word ++ after))
      with (Some (" "%char :: first_word ++ newline :: second_word ++ after)).
    replace (" "%char :: first_word ++ newline :: second_word ++ after)
      with ((" "%char :: first_word ++ newline :: second_word) ++ after)
      by (simpl; rewrite <- app_assoc; reflexivity).
    rewrite (take_while_app_stop deal_char _ after Hrun Hafter).
    cbn [nonempty]. f_equal.
    rewrite strip_chars_space by reflexivity.
    apply strip_chars_fixed.
    change (first_word ++ newline :: second_word)
      with (first_word ++ [newline] ++ second_word).
    apply no_space_ends_app; try assumption; apply words_no_space_ends;
      assumption. }
  rewrite (first_at_here _ _ _ Hh). reflexivity.
Qed.

Lemma X16_witness :
  exists fields,
    extract_fields
      (to_str (of_str "Deal: " ++ of_str "Falcon" ++ newline :: of_str "Amount"
               ++ of_str ": $5"))
    = Ok fields
    /\ fields !! "deal_name"
       = Some (Some (to_str (of_str "Falcon" ++ newline :: of_str "Amount"))).
Proof.
  refine (X16_deal_name_runs_over_line_breaks
            (of_str "Falcon") (of_str "Amount") (of_str ": $5") _ _ _ _ _).
  - discriminate.
  - discriminate.
  - reflexivity.
  - reflexivity.
  - reflexivity.
Defined.

(** ** Uploaded files *)

Lemma process_email_no_attachments sha256_hexdigest post email_text
    (st : HashSet) r :
  (process_email sha256_hexdigest post email_text None st).2 = Ok r ->
  attachments_extracted_fields r = []
  /\ extracted_fields r = fields_of email_text
  /\ call_openrouter_deepseek post email_text = Ok (classification r).
Proof.
  destruct (call_openrouter_deepseek post email_text) as [c|e] eqn:Hc.
  - rewrite (process_email_ok _ _ _ None st _ Hc). simpl.
    intros H. injection H as <-. auto.
  - rewrite (process_email_raise _ _ _ None st _ Hc). discriminate.
Qed.

(** X17. A result obtained from an uploaded file never has attachment
    results: the text of the file is processed without attachments, so
    attachments_extracted_fields is the empty list, and the fields are
    those of the text read from the file. *)
Theorem X17_uploaded_file_has_no_attachment_results
    (sha256_hexdigest : string -> string)
    (read_eml read_msg : string -> result string)
    (post : string -> post_outcome) (file_path : string) (st : HashSet)
    (r : ProcessingResult) :
  (process_email_file sha256_hexdigest read_eml read_msg post file_path st).2
  = Ok r ->
  attachments_extracted_fields r = []
  /\ exists email_text,
       (read_eml file_path = Ok email_text \/ read_msg file_path = Ok email_text)
       /\ extract_fields email_text = Ok (extracted_fields r).
Proof.
  unfold process_email_file.
  destruct (String.eqb _ ".eml").
  - destruct (read_eml file_path) as [email_text|e] eqn:E; [|discriminate].
    intros H. apply process_email_no_attachments in H.
    destruct H as (H1 & H2 & _). split; [exact H1|].
    exists email_text. split; [left; reflexivity|].
    rewrite H2. apply extract_fields_ok.
  - destruct (String.eqb _ ".msg"); [|discriminate].
    destruct (read_msg file_path) as [email_text|e] eqn:E; [|discriminate].
    intros H. apply process_email_no_attachments in H.
    destruct H as (H1 & H2 & _). split; [exact H1|].
    exists email_text. split; [right; reflexivity|].
    rewrite H2. apply extract_fields_ok.
Qed.

Lemma X17_witness :
  exists r,
    (process_email_file (fun s => s)
       (fun _ => Ok "Deal: Falcon") (fun _ => Raise (ImportError "extract_msg"))
       (answering "Fee Payment") "inbox/notice.EML" ∅).2 = Ok r
    /\ attachments_extracted_fields r = [].
Proof.
  eexists. split; [vm_compute; reflexivity|].
  refine (proj1 (X17_uploaded_file_has_no_attachment_results
                   (fun s => s)
                   (fun _ => Ok "Deal: Falcon")
                   (fun _ => Raise (ImportError "extract_msg"))
                   (answering "Fee Payment") "inbox/notice.EML" ∅ _ _)).
  vm_compute. reflexivity.
Defined.

(** ** The upload wrapper *)

(** X18. For a file whose lowered extension is neither [.eml] nor
    [.msg], the wrapper answers with the fixed text "Error processing
    file: Unsupported file type. Only .eml and .msg files are
    supported."; the hash set stays as it was, and neither the file
    readers nor the backend have any influence. *)
Theorem X18_wrapper_reports_unsupported_file_type
    (sha256_hexdigest : string -> string)
    (read_eml read_msg : string -> result string)
    (json_dumps : ProcessingResult -> string)
    (post : string -> post_outcome) (file_obj : FileObj) (st : HashSet) :
  lower (splitext (name file_obj)).2 <> ".eml" ->
  lower (splitext (name file_obj)).2 <> ".msg" ->
  gradio_process_email sha256_hexdigest read_eml read_msg json_dumps post
    (Some file_obj) st
  = (st,
     "Error processing file: Unsupported file type. Only .eml and .msg files are supported.").
Proof.
  intros H1 H2. unfold gradio_process_email, process_email_file.
  destruct (String.eqb_spec (lower (splitext (name file_obj)).2) ".eml");
    [contradiction|].
  destruct (String.eqb_spec (lower (splitext (name file_obj)).2) ".msg");
    [contradiction|].
  reflexivity.
Qed.

Lemma X18_witness :
  gradio_process_email (fun s => s)
    (fun _ => Ok "Deal: Falcon") (fun _ => Ok "Deal: Falcon")
    (fun _ => "{}") (answering "Fee Payment")
    (Some {| name := "/tmp/gradio/notice.pdf" |}) ∅
  = (∅,
     "Error processing file: Unsupported file type. Only .eml and .msg files are supported.").
Proof.
  refine (X18_wrapper_reports_unsupported_file_type
            (fun s => s) (fun _ => Ok "Deal: Falcon") (fun _ => Ok "Deal: Falcon")
            (fun _ => "{}") (answering "Fee Payment")
            {| name := "/tmp/gradio/notice.pdf" |} ∅ _ _);
    vm_compute; discriminate.
Defined.


(** ** File names *)

Lemma rfind_from_app c a b i last :
  rfind_from c (a ++ b) i last
  = rfind_from c b (i + Z.of_nat (length a))%Z (rfind_from c a i last).
Proof.
  revert i last. induction a as [|x a IH]; intros i last; simpl.
  - f_equal. lia.
  - rewrite IH. f_equal. lia.
Qed.

Lemma rfind_from_absent c p i last :
  no_char c p -> rfind_from c p i last = last.
Proof.
  intros H. revert i. induction H as [|x p Hx _ IH]; intros i; simpl;
    [reflexivity|].
  rewrite Hx. apply IH.
Qed.

Lemma rfind_from_all c p i last :
  Forall (fun x => Ascii.eqb x c = true) p -> p <> [] ->
  rfind_from c p i last = (i + Z.of_nat (length p) - 1)%Z.
Proof.
  intros H. revert i last. induction H as [|x p Hx Hp IH]; intros i last Hne;
    [contradiction|].
  simpl rfind_from. rewrite Hx. destruct p as [|y p].
  - simpl. lia.
  - rewrite IH by discriminate. simpl length. lia.
Qed.

Lemma rfind_from_bound c p i last :
  (last < i)%Z -> (rfind_from c p i last < i + Z.of_nat (length p))%Z.
Proof.
  revert i last. induction p as [|x p IH]; intros i last Hl; simpl rfind_from.
  - simpl. lia.
  - specialize (IH (i + 1)%Z (if Ascii.eqb x c then i else last)).
    simpl length. destruct (Ascii.eqb x c); lia.
Qed.

Lemma rfind_slash_dir pre rest :
  dir_prefix pre -> no_char "/" rest ->
  rfind "/" (pre ++ rest) = (Z.of_nat (length pre) - 1)%Z.
Proof.
  intros Hpre Hrest. unfold rfind.
  rewrite rfind_from_app, (rfind_from_absent _ _ _ _ Hrest).
  destruct Hpre as [-> | (pre' & ->)]; [reflexivity|].
  rewrite rfind_from_app. simpl. rewrite length_app. simpl. lia.
Qed.

Lemma no_char_app c a b : no_char c a -> no_char c b -> no_char c (a ++ b).
Proof. intros Ha Hb. apply Forall_app. split; assumption. Qed.

(** A file name with a stem that is not only dots: the extension is what
    follows its last dot. *)
Lemma splitext_stem_ext pre stem e :
  dir_prefix pre -> no_char "/" stem ->
  existsb (fun c => negb (Ascii.eqb c ".")) stem = true ->
  no_char "." e -> no_char "/" e ->
  splitext (to_str (pre ++ stem ++ "."%char :: e))
  = (to_str (pre ++ stem), to_str ("."%char :: e)).
Proof.
  intros Hpre Hstem Hnd He1 He2. unfold splitext. rewrite of_to_str.
  assert (Hsep : rfind "/" (pre ++ stem ++ "."%char :: e)
                 = (Z.of_nat (length pre) - 1)%Z).
  { apply rfind_slash_dir; [exact Hpre|].
    apply no_char_app; [exact Hstem|]. constructor; [reflexivity | exact He2]. }
  assert (Hdot : rfind "." (pre ++ stem ++ "."%char :: e)
                 = Z.of_nat (length pre + length stem)).
  { unfold rfind. rewrite app_assoc, rfind_from_app. simpl rfind_from.
    rewrite (rfind_from_absent _ _ _ _ He1), length_app. lia. }
  rewrite Hsep, Hdot.
  assert (Hlt : (Z.of_nat (length pre) - 1 <? Z.of_nat (length pre + length stem))%Z
                = true) by (apply Z.ltb_lt; lia).
  rewrite Hlt.
  replace (Z.to_nat (Z.of_nat (length pre) - 1 + 1)) with (length pre) by lia.
  replace (Z.to_nat (Z.of_nat (length pre + length stem)
                     - (Z.of_nat (length pre) - 1 + 1)))
    with (length stem) by lia.
  replace (Z.to_nat (Z.of_nat (length pre + length stem)))
    with (length (pre ++ stem)) by (rewrite length_app; lia).
  rewrite drop_app_length, take_app_length, Hnd.
  rewrite app_assoc, take_app_length, drop_app_length. reflexivity.
Qed.

(** A file name made of dots and a name without a dot has no extension. *)
Lemma splitext_dotfile pre dots nm :
  dir_prefix pre -> Forall (fun c => Ascii.eqb c "." = true) dots ->
  no_char "." nm -> no_char "/" nm ->
  (splitext (to_str (pre ++ dots ++ nm))).2 = "".
Proof.
  intros Hpre Hdots Hn1 Hn2. unfold splitext. rewrite of_to_str.
  assert (Hds : no_char "/" dots).
  { eapply Forall_impl; [exact Hdots|]. intros c Hc. simpl in Hc.
    apply Ascii.eqb_eq in Hc. subst c. reflexivity. }
  assert (Hsep : rfind "/" (pre ++ dots ++ nm) = (Z.of_nat (length pre) - 1)%Z).
  { apply rfind_slash_dir; [exact Hpre | apply no_char_app; assumption]. }
  rewrite Hsep.
  destruct dots as [|d dots].
  - assert (Hdot : (rfind "." (pre ++ [] ++ nm) < Z.of_nat (length pre))%Z).
    { unfold rfind. simpl app. rewrite rfind_from_app.
      rewrite (rfind_from_absent _ _ _ _ Hn1).
      pose proof (rfind_from_bound "." pre 0 (-1)) as Hb. lia. }
    assert (Hlt : (Z.of_nat (length pre) - 1 <? rfind "." (pre ++ [] ++ nm))%Z
                  = false) by (apply Z.ltb_ge; lia).
    rewrite Hlt. reflexivity.
  - assert (Hdot : rfind "." (pre ++ (d :: dots) ++ nm)
                   = (Z.of_nat (length pre) + Z.of_nat (length (d :: dots)) - 1)%Z).
    { unfold rfind. rewrite rfind_from_app, rfind_from_app.
      rewrite (rfind_from_absent _ _ _ _ Hn1).
      rewrite (rfind_from_all _ _ _ _ Hdots) by discriminate. lia. }
    rewrite Hdot.
    destruct (_ <? _)%Z; [|reflexivity].
    replace (Z.to_nat (Z.of_nat (length pre) - 1 + 1)) with (length pre) by lia.
    rewrite drop_app_length.
    assert (Hall : forall n (l : list ascii),
               Forall (fun c => Ascii.eqb c "." = true) l ->
               existsb (fun c => negb (Ascii.eqb c ".")) (take n l) = false).
    { intros n l Hl. revert n. induction Hl as [|c l Hc _ IH]; intros n.
      - destruct n; reflexivity.
      - destruct n; [reflexivity|]. simpl. rewrite Hc. apply IH. }
    replace (Z.to_nat (Z.of_nat (length pre) + Z.of_nat (length (d :: dots)) - 1
                       - (Z.of_nat (length pre) - 1 + 1)))
      with (length dots) by (simpl length; lia).
    assert (Htake : take (length dots) ((d :: dots) ++ nm)
                    = take (length dots) (d :: dots)).
    { apply take_app_le. simpl. lia. }
    rewrite Htake, (Hall _ _ Hdots). reflexivity.
Qed.

(** X20. Only what follows the last dot of the file name decides.  For a
    path made of a directory part, a stem that is not only dots, a dot
    and a last part without dot or slash, the file is read as [.eml] or
    as [.msg] when the dot and the last part, lowered, spell that
    extension, and is refused as unsupported otherwise, whatever dots the
    stem or the directory part have. *)
Theorem X20_last_extension_decides
    (sha256_hexdigest : string -> string)
    (read_eml read_msg : string -> result string)
    (post : string -> post_outcome) (st : HashSet)
    (pre stem e : list ascii) :
  dir_prefix pre -> no_char "/" stem ->
  existsb (fun c => negb (Ascii.eqb c ".")) stem = true ->
  no_char "." e -> no_char "/" e ->
  let file_path := to_str (pre ++ stem ++ "."%char :: e) in
  let ext := lower (to_str ("."%char :: e)) in
  let run := process_email_file sha256_hexdigest read_eml read_msg post file_path st in
  (ext = ".eml" ->
   run = match read_eml file_path with
         | Ok email_text =>
             process_email sha256_hexdigest post email_text None st
         | Raise x => (st, Raise x)
         end)
  /\ (ext = ".msg" ->
      run = match read_msg file_path with
            | Ok email_text =>
                process_email sha256_hexdigest post email_text None st
            | Raise x => (st, Raise x)
            end)
  /\ (ext <> ".eml" -> ext <> ".msg" -> run = (st, Raise unsupported_file_type)).
Proof.
  intros Hpre Hstem Hnd He1 He2 file_path ext run. subst file_path ext run.
  unfold process_email_file.
  rewrite (splitext_stem_ext pre stem e Hpre Hstem Hnd He1 He2). cbn [snd].
  split; [|split].
  - intros ->. reflexivity.
  - intros ->. reflexivity.
  - intros H1 H2.
    destruct (String.eqb_spec (lower (to_str ("."%char :: e))) ".eml");
      [contradiction|].
    destruct (String.eqb_spec (lower (to_str ("."%char :: e))) ".msg");
      [contradiction|].
    reflexivity.
Qed.

Lemma X20_witness :
  process_email_file (fun s => s)
    (fun _ => Raise (OSError "No such file")) (fun _ => Ok "Deal: Falcon")
    (answering "Fee Payment") "uploads/v1.2/notice.eml.TXT" ∅
  = (∅, Raise unsupported_file_type).
Proof.
  refine (proj2 (proj2 (X20_last_extension_decides
                          (fun s => s)
                          (fun _ => Raise (OSError "No such file"))
                          (fun _ => Ok "Deal: Falcon")
                          (answering "Fee Payment") ∅
                          (of_str "uploads/v1.2/") (of_str "notice.eml")
                          (of_str "TXT") _ _ _ _ _)) _ _).
  - right. exists (of_str "uploads/v1.2"). reflexivity.
  - repeat constructor.
  - reflexivity.
  - repeat constructor.
  - repeat constructor.
  - vm_compute. discriminate.
  - vm_compute. discriminate.
Defined.

(** X21. A file whose name is only an extension is refused: when the
    file name is made of leading dots and a name without further dot,
    such as [.eml] or [.msg], it has no extension, and the ValueError for
    an unsupported file type is raised with the hash set untouched. *)
Theorem X21_dotfile_is_unsupported
    (sha256_hexdigest : string -> string)
    (read_eml read_msg : string -> result string)
    (post : string -> post_outcome) (st : HashSet)
    (pre dots nm : list ascii) :
  dir_prefix pre ->
  Forall (fun c => Ascii.eqb c "." = true) dots ->
  no_char "." nm -> no_char "/" nm ->
  process_email_file sha256_hexdigest read_eml read_msg post
    (to_str (pre ++ dots ++ nm)) st
  = (st, Raise unsupported_file_type).
Proof.
  intros Hpre Hdots Hn1 Hn2. unfold process_email_file.
  rewrite (splitext_dotfile pre dots nm Hpre Hdots Hn1 Hn2). reflexivity.
Qed.

Lemma X21_witness :
  process_email_file (fun s => s)
    (fun _ => Ok "Deal: Falcon") (fun _ => Ok "Deal: Falcon")
    (answering "Fee Payment") "uploads/.eml" ∅
  = (∅, Raise unsupported_file_type).
Proof.
  refine (X21_dotfile_is_unsupported
            (fun s => s) (fun _ => Ok "Deal: Falcon") (fun _ => Ok "Deal: Falcon")
            (answering "Fee Payment") ∅
            (of_str "uploads/") (of_str ".") (of_str "eml") _ _ _ _).
  - right. exists (of_str "uploads"). reflexivity.
  - repeat constructor.
  - repeat constructor.
  - repeat constructor.
Defined.


(** ** Lines written and read back *)

Lemma of_str_join_cons a b rest :
  of_str (join (String newline "") (a :: b :: rest))
  = of_str a ++ [newline] ++ of_str (join (String newline "") (b :: rest)).
Proof.
  change (join (String newline "") (a :: b :: rest))
    with (a +:+ String newline "" +:+ join (String newline "") (b :: rest)).
  rewrite !of_str_app. reflexivity.
Qed.

Lemma join_lines_ends lines :
  Forall trimmed_line lines -> lines <> [] ->
  of_str (join (String newline "") lines) <> []
  /\ no_space_ends (of_str (join (String newline "") lines)).
Proof.
  induction 1 as [|a lines Ha Hl IH]; intros Hne; [contradiction|].
  destruct (trimmed_line_chars a Ha) as (Ha1 & Ha2 & _).
  apply strip_chars_fixed in Ha2.
  destruct lines as [|b rest]; [split; assumption|].
  destruct IH as [IH1 IH2]; [discriminate|].
  rewrite of_str_join_cons. split.
  - destruct (of_str a); [contradiction | discriminate].
  - apply no_space_ends_app; assumption.
Qed.

Lemma split_join_lines lines :
  Forall trimmed_line lines -> lines <> [] ->
  split_newline (of_str (join (String newline "") lines)) = map of_str lines.
Proof.
  induction 1 as [|a lines Ha Hl IH]; intros Hne; [contradiction|].
  destruct (trimmed_line_chars a Ha) as (_ & _ & Ha3).
  destruct lines as [|b rest].
  - simpl. apply split_newline_one_line, Ha3.
  - rewrite of_str_join_cons.
    change (of_str a ++ [newline] ++ ?t) with (of_str a ++ newline :: t).
    rewrite split_newline_app, (split_newline_one_line _ Ha3), IH by discriminate.
    reflexivity.
Qed.

Lemma keep_trimmed_lines lines :
  Forall trimmed_line lines ->
  map (fun line => to_str (strip_chars line))
    (filter (fun line => nonempty (strip_chars line) = true) (map of_str lines))
  = lines.
Proof.
  induction 1 as [|a lines Ha Hl IH]; [reflexivity|].
  destruct (trimmed_line_chars a Ha) as (Ha1 & Ha2 & _).
  simpl map at 2. rewrite filter_cons, Ha2.
  destruct (decide _) as [H|H].
  - simpl. rewrite Ha2, to_of_str, IH. reflexivity.
  - destruct (of_str a); [contradiction | contradiction H; reflexivity].
Qed.

(** X22. Reading back what was written: a response made of lines that
    are non-empty and have no whitespace at their ends, joined by line
    breaks, is split into exactly those lines, in order.  The primary
    request is then the first of them. *)
Theorem X22_response_lines_of_joined_lines (lines : list string) :
  Forall trimmed_line lines ->
  response_lines (join (String newline "") lines) = lines
  /\ parse_primary (response_lines (join (String newline "") lines))
     = match lines with
       | [] => "Unknown"
       | line :: _ => line
       end.
Proof.
  intros Hl.
  assert (H : response_lines (join (String newline "") lines) = lines).
  { destruct lines as [|a rest]; [reflexivity|].
    unfold response_lines.
    destruct (join_lines_ends _ Hl) as [_ Hends]; [discriminate|].
    apply strip_chars_fixed in Hends. rewrite Hends.
    rewrite (split_join_lines _ Hl) by discriminate.
    apply keep_trimmed_lines, Hl. }
  split; [exact H|]. rewrite H. apply parse_primary_first.
Qed.

Lemma X22_witness :
  response_lines
    (join (String newline "") ["Fee Payment"; "Ongoing Fee"; "Confidence: 0.9"])
  = ["Fee Payment"; "Ongoing Fee"; "Confidence: 0.9"].
Proof.
  refine (proj1 (X22_response_lines_of_joined_lines
                   ["Fee Payment"; "Ongoing Fee"; "Confidence: 0.9"] _)).
  repeat constructor; apply trimmed_line_literal;
    solve [discriminate | reflexivity].
Defined.

(** ** What follows the numeral *)

(** X23. Only the digits and dots right after the label are read; what
    follows them is ignored.  A whole numeral followed by any text that
    does not start with a digit or a dot (a percent sign, an exponent, a
    unit) is read as the float of the numeral alone, which is the value
    of the numeral itself when that is below [2 ^ 53]. *)
Theorem X23_text_after_numeral_ignored
    (l1 l2 : string) (rest : list string) (ds after : list ascii) :
  ds <> [] ->
  forallb is_digit ds = true ->
  match after with
  | c :: _ => digit_or_dot c = false
  | [] => True
  end ->
  parse_confidence
    (l1 :: l2 :: to_str (of_str "Confidence: " ++ ds ++ after) :: rest)
  = Some (round_binary64 (digits_value ds) 1)
  /\ ((digits_value ds < 2 ^ 53)%Z ->
      parse_confidence
        (l1 :: l2 :: to_str (of_str "Confidence: " ++ ds ++ after) :: rest)
      = Some (Finite (digits_value ds # 1))).
Proof.
  intros Hne Hd Hafter.
  assert (H : parse_confidence
                (l1 :: l2 :: to_str (of_str "Confidence: " ++ ds ++ after) :: rest)
              = Some (round_binary64 (digits_value ds) 1)).
  { rewrite parse_confidence_spec.
    change ((l1 :: l2 :: ?x :: rest) !! 2%nat) with (Some x).
    apply confidence_of_digits; assumption. }
  split; [exact H|]. intros Hlt. rewrite H.
  rewrite round_binary64_exact_integer; [reflexivity|].
  split; [apply digits_value_nonneg | exact Hlt].
Qed.

Lemma X23_witness :
  parse_confidence ["Fee Payment"; "Ongoing Fee"; "Confidence: 1e-3"]
  = Some (Finite 1).
Proof.
  refine (proj2 (X23_text_after_numeral_ignored
                   "Fee Payment" "Ongoing Fee" [] (of_str "1") (of_str "e-3")
                   _ _ _) _).
  - discriminate.
  - reflexivity.
  - reflexivity.
  - reflexivity.
Defined.
